(** * Tier list maker: the partition engine of [src/App.tsx]

    A shallow embedding of the state handlers of the [App] component
    (the Tier Registry [rows], the Partition Store [items], the drag
    handlers and the snapshot load/save paths), followed by the properties
    proved about them.

    Conventions of the embedding.
    - A JavaScript array is a [list]; [Array.prototype.findIndex] returns
      a [Z] ([-1] when nothing matches), [splice] takes a [Z] start and
      normalises it as ECMAScript does.
    - The [items] object is an association list in property enumeration
      order (the order [for ... in] visits the keys: insertion order for
      every key that is not an array index, which is the case of every id
      the program generates).  Keys of an object are unique; the
      predicate [wf_object] records it where a proof needs it.  A read
      [o[k]] that finds no own property goes on to [Object.prototype]:
      [JS.read] tells an own value from an inherited one and from
      [undefined].  Where the source dereferences the result at once
      ([.findIndex], [.push], a spread of the bank) an inherited value
      throws like [undefined] does, and [JS.get] is enough.
    - A handler returns an [outcome]: the next state, a thrown
      [TypeError] (a property read on [undefined]), or the remark that
      the handler stored [undefined] inside an array, a value the typed
      state ([TierImage[]], [TierRowData[]]) cannot hold.
    - A state updater passed to [setRows]/[setItems] is run once, on the
      state the handler's closure was created from ([prev] is the [items]
      of the closure).  The arrays that [handleDragEnd] changes in place
      are therefore the very arrays [findContainer] reads afterwards, and
      the model reads the changed store there. *)

From Stdlib Require Import List String Ascii ZArith Bool Arith Lia Permutation.
Import ListNotations.
Local Open Scope string_scope.
Local Open Scope list_scope.

Set Warnings "-register-all".

(** ** JavaScript arrays and objects *)

Module JS.

Section Arrays.
Context {A : Type}.

(** Position of the first element satisfying [p]. *)
Fixpoint first_index (p : A -> bool) (l : list A) : option nat :=
  match l with
  | [] => None
  | x :: t => if p x then Some 0%nat else option_map S (first_index p t)
  end.

(** [arr.findIndex(p)] *)
Definition findIndex (p : A -> bool) (l : list A) : Z :=
  match first_index p l with
  | Some n => Z.of_nat n
  | None => (-1)%Z
  end.

(** [arr.some(p)] *)
Definition some (p : A -> bool) (l : list A) : bool := existsb p l.

(** [arr.push(x)] *)
Definition push (l : list A) (x : A) : list A := l ++ [x].

(** The actual start of [splice(start, ...)] on an array of length
    [len]: a negative start counts from the end, and the result is
    clamped to [0 .. len]. *)
Definition relative_start (len : nat) (start : Z) : nat :=
  if (start <? 0)%Z
  then Z.to_nat (Z.max (Z.of_nat len + start) 0)
  else Nat.min (Z.to_nat start) len.

(** [arr.splice(start, 1)]: the removed elements (at most one) and the
    array as it is afterwards. *)
Definition splice_delete (l : list A) (start : Z) : list A * list A :=
  let k := relative_start (List.length l) start in
  (firstn 1 (skipn k l), firstn k l ++ skipn (S k) l).

(** [arr.splice(start, 0, x)]: the array as it is afterwards. *)
Definition splice_insert (l : list A) (start : Z) (x : A) : list A :=
  let k := relative_start (List.length l) start in
  firstn k l ++ x :: skipn k l.

(** [arrayMove(array, from, to)] of @dnd-kit/sortable:
    [newArray = array.slice();
     newArray.splice(to < 0 ? newArray.length + to : to, 0,
                     newArray.splice(from, 1)[0]);]
    The arguments of the outer call are evaluated left to right, so
    the target index is computed on the length before the removal.
    [None] when the inner [splice] removes nothing: the library then
    inserts [undefined]. *)
Definition arrayMove (array : list A) (from to : Z) : option (list A) :=
  let target :=
    if (to <? 0)%Z then (Z.of_nat (List.length array) + to)%Z else to in
  let '(removed, newArray) := splice_delete array from in
  match removed with
  | x :: _ => Some (splice_insert newArray target x)
  | [] => None
  end.

(** Reference operations used to state what a move does. *)
Definition remove_at (i : nat) (l : list A) : list A :=
  firstn i l ++ skipn (S i) l.

Definition insert_at (i : nat) (x : A) (l : list A) : list A :=
  firstn i l ++ x :: skipn i l.
End Arrays.

Section Objects.
Context {V : Type}.

(** An object used as a map from strings: its own properties in
    enumeration order. *)
Definition object := list (string * V).

Definition keys (o : object) : list string := map fst o.

Definition wf_object (o : object) : Prop := NoDup (keys o).

(** [o[k]]; [None] is [undefined]. *)
Fixpoint get (o : object) (k : string) : option V :=
  match o with
  | [] => None
  | (k', v) :: t => if String.eqb k' k then Some v else get t k
  end.

(** [{...o, [k]: v}], and [o[k] = v] on a fresh copy: an existing
    property keeps its place, a new one goes last. *)
Fixpoint set (o : object) (k : string) (v : V) : object :=
  match o with
  | [] => [(k, v)]
  | (k', v') :: t =>
      if String.eqb k' k then (k', v) :: t else (k', v') :: set t k v
  end.

(** [delete o[k]] *)
Definition delete (o : object) (k : string) : object :=
  filter (fun e => negb (String.eqb (fst e) k)) o.

(** What a read [o[k]] finds on an object created by a literal, a spread
    or [JSON.parse]: an own property, a property of [Object.prototype]
    (a function, or [Object.prototype] itself for [__proto__]: truthy,
    neither an array nor iterable), or [undefined]. *)
Inductive property : Type :=
| Own (v : V)
| Inherited
| Undefined.
End Objects.

Arguments object : clear implicits.
Arguments property : clear implicits.
Arguments Inherited {V}.
Arguments Undefined {V}.

(** The names [Object.prototype] defines. *)
Definition Object_prototype : list string :=
  [ "constructor"; "__defineGetter__"; "__defineSetter__"; "hasOwnProperty";
    "__lookupGetter__"; "__lookupSetter__"; "isPrototypeOf";
    "propertyIsEnumerable"; "toString"; "valueOf"; "__proto__";
    "toLocaleString" ].

Definition inherited (k : string) : bool :=
  existsb (String.eqb k) Object_prototype.

(** [o[k]], following the prototype chain. *)
Definition read {V : Type} (o : object V) (k : string) : property V :=
  match get o k with
  | Some v => Own v
  | None => if inherited k then Inherited else Undefined
  end.

End JS.

(** ** Data model *)

(** [constants.ts] *)
Definition UNRANKED_ID : string := "unranked".

Inductive ItemType : Type := ROW | IMAGE.

(** Modelled from the spec: [types.ts] is not part of the sources; the
    spec's data model and the snapshot schema give an image item the
    fields [id] and [src], which are the fields [App.tsx] reads and
    writes. *)
Record TierImage : Type := mkImage { image_id : string; src : string }.

(** Modelled from the spec: [types.ts] is not part of the sources; a tier
    is [{id, label, color}], as the literals of [DEFAULT_STATE] and of
    [handleAddRow] build it. *)
Record TierRowData : Type :=
  mkRow { row_id : string; label : string; color : string }.

(** What a handler does. *)
Inductive outcome (S : Type) : Type :=
| Done (s : S)
| TypeError
| UndefinedElement.
Arguments Done {S} s.
Arguments TypeError {S}.
Arguments UndefinedElement {S}.

Definition bind {A B : Type} (o : outcome A) (k : A -> outcome B) : outcome B :=
  match o with
  | Done a => k a
  | TypeError => TypeError
  | UndefinedElement => UndefinedElement
  end.

Notation "x <- o ;; k" := (bind o (fun x => k))
  (at level 61, o at next level, right associativity).

(** The React state of [App]: [rows], [items] and [activeId]. *)
Record State : Type := mkState {
  rows : list TierRowData;
  items : JS.object (list TierImage);
  activeId : option string
}.

Definition with_rows (st : State) (r : list TierRowData) : State :=
  mkState r (items st) (activeId st).

Definition with_items (st : State) (i : JS.object (list TierImage)) : State :=
  mkState (rows st) i (activeId st).

Definition with_activeId (st : State) (a : option string) : State :=
  mkState (rows st) (items st) a.

(** [DEFAULT_STATE] *)
Definition defaultRows : list TierRowData :=
  [ mkRow "S" "S" "#ff7f7f";
    mkRow "A" "A" "#ffbf7f";
    mkRow "B" "B" "#ffff7f";
    mkRow "C" "C" "#7fff7f";
    mkRow "D" "D" "#7fbfff" ].

Definition defaultItems : JS.object (list TierImage) :=
  JS.set
    (fold_left (fun acc row => JS.set acc (row_id row) []) defaultRows [])
    UNRANKED_ID [].

Definition DEFAULT_STATE : State := mkState defaultRows defaultItems None.

(** The predicates the handlers pass to [findIndex], [some], [filter]. *)
Definition image_is (id : string) (item : TierImage) : bool :=
  String.eqb (image_id item) id.

Definition row_is (id : string) (row : TierRowData) : bool :=
  String.eqb (row_id row) id.

(** Truthiness of a [string | null]: [null] and the empty string are
    falsy. *)
Definition truthy_id (c : option string) : bool :=
  match c with
  | Some s => negb (String.eqb s "")
  | None => false
  end.

(** ** Handlers *)

(** [handleImageUpload], after the files are read: [newImages] carry the
    ids [crypto.randomUUID()] returned. *)
Definition handleImageUpload (newImages : list TierImage) (st : State)
  : outcome State :=
  match JS.get (items st) UNRANKED_ID with
  | Some unranked =>
      Done (with_items st (JS.set (items st) UNRANKED_ID (unranked ++ newImages)))
  | None => TypeError
  end.

(** [handleAddRow]; [uuid] is the value of [crypto.randomUUID()]. *)
Definition handleAddRow (uuid : string) (st : State) : State :=
  let newId := String.append "new-row-" uuid in
  let newRow := mkRow newId "New Tier" "#4a4a4a" in
  mkState (rows st ++ [newRow]) (JS.set (items st) newId []) (activeId st).

(** [handleUpdateRow] *)
Definition handleUpdateRow (id newLabel newColor : string) (st : State)
  : State :=
  with_rows st
    (map (fun row => if row_is id row
                     then mkRow (row_id row) newLabel newColor
                     else row)
         (rows st)).

(** [items[id] || []]: the array of the container, the empty array when
    the read is [undefined], and [None] when the read finds a property of
    [Object.prototype], which is truthy and not an array. *)
Definition itemsOrEmpty (items : JS.object (list TierImage)) (id : string)
  : option (list TierImage) :=
  match JS.read items id with
  | JS.Own l => Some l
  | JS.Undefined => Some []
  | JS.Inherited => None
  end.

(** [handleDeleteRow]; both spreads of
    [[...newItems[UNRANKED_ID], ...itemsToMove]] throw on a value that
    is not iterable. *)
Definition handleDeleteRow (id : string) (st : State) : outcome State :=
  let rows' := filter (fun row => negb (row_is id row)) (rows st) in
  let newItems := items st in
  let itemsToMove := itemsOrEmpty newItems id in
  match JS.get newItems UNRANKED_ID, itemsToMove with
  | Some unranked, Some itemsToMove =>
      let newItems := JS.set newItems UNRANKED_ID (unranked ++ itemsToMove) in
      Done (mkState rows' (JS.delete newItems id) (activeId st))
  | _, _ => TypeError
  end.

(** The loop of [findContainer]: the first key [containerId] of [items],
    in enumeration order, such that [items[containerId]] holds an item
    with the id. *)
Definition scanContainers (items : JS.object (list TierImage)) (id : string)
  : option string :=
  find (fun containerId =>
          match JS.get items containerId with
          | Some l => JS.some (image_is id) l
          | None => false
          end)
       (JS.keys items).

(** [findContainer] *)
Definition findContainer (rows : list TierRowData)
  (items : JS.object (list TierImage)) (id : string) : option string :=
  if String.eqb id UNRANKED_ID || JS.some (row_is id) rows
  then Some id
  else scanContainers items id.

(** [handleDragStart] *)
Definition handleDragStart (id : string) (st : State) : State :=
  with_activeId st (Some id).

(** [event.active] and [event.over]: the id, and the [type] the
    component registered in [data] ([TierRow]: ['row'], [SortableImage]:
    ['image'], [ImageBank]: no data). *)
Record Target : Type := mkTarget { id : string; data_type : option ItemType }.

Record DragEndEvent : Type :=
  mkEvent { active : Target; over : option Target }.

Definition is_type (t : ItemType) (d : option ItemType) : bool :=
  match d, t with
  | Some ROW, ROW | Some IMAGE, IMAGE => true
  | _, _ => false
  end.

(** The [setRows] updater of the row branch. *)
Definition reorderRows (activeId overId : string) (rows : list TierRowData)
  : option (list TierRowData) :=
  let oldIndex := JS.findIndex (row_is activeId) rows in
  let newIndex := JS.findIndex (row_is overId) rows in
  JS.arrayMove rows oldIndex newIndex.

(** The branch of [handleDragEnd] taken when a container is unresolved
    or both ids resolve to the same container. *)
Definition moveWithin (activeContainer : option string)
  (activeId overId : string) (items : JS.object (list TierImage))
  : outcome (JS.object (list TierImage)) :=
  match activeContainer with
  | Some c =>
      if truthy_id activeContainer && truthy_id (Some overId) then
        match JS.get items c with
        | None => TypeError
        | Some l =>
            let activeIndex := JS.findIndex (image_is activeId) l in
            let overIndex := JS.findIndex (image_is overId) l in
            if negb (activeIndex =? -1)%Z && negb (overIndex =? -1)%Z
               && negb (activeIndex =? overIndex)%Z
            then
              match JS.arrayMove l activeIndex overIndex with
              | Some l' => Done (JS.set items c l')
              | None => UndefinedElement
              end
            else Done items
        end
      else Done items
  | None => Done items
  end.

(** The [setItems] updater of the branch taken when the two containers
    differ. *)
Definition moveAcross (rows : list TierRowData)
  (activeContainer overContainer activeId overId : string)
  (prev : JS.object (list TierImage))
  : outcome (JS.object (list TierImage)) :=
  match JS.get prev activeContainer with
  | None => TypeError
  | Some source =>
      let activeIndex := JS.findIndex (image_is activeId) source in
      let '(removed, source') := JS.splice_delete source activeIndex in
      let newItems := JS.set prev activeContainer source' in
      let overIsContainer :=
        match findContainer rows newItems overId with
        | Some c => String.eqb c overId
        | None => false
        end in
      match JS.get newItems overContainer with
      | None => TypeError
      | Some dest =>
          match removed with
          | [] => UndefinedElement
          | movedItem :: _ =>
              if overIsContainer then
                Done (JS.set newItems overContainer (JS.push dest movedItem))
              else
                let overIndex := JS.findIndex (image_is overId) dest in
                if negb (overIndex =? -1)%Z then
                  Done (JS.set newItems overContainer
                                (JS.splice_insert dest overIndex movedItem))
                else
                  Done (JS.set newItems overContainer (JS.push dest movedItem))
          end
      end
  end.

(** [handleDragEnd] *)
Definition handleDragEnd (event : DragEndEvent) (st : State)
  : outcome State :=
  match over event with
  | None => Done (with_activeId st None)
  | Some over =>
      let active := active event in
      if is_type ROW (data_type active) && is_type ROW (data_type over) then
        if negb (String.eqb (id active) (id over)) then
          match reorderRows (id active) (id over) (rows st) with
          | Some rows' => Done (mkState rows' (items st) None)
          | None => UndefinedElement
          end
        else Done (with_activeId st None)
      else if is_type IMAGE (data_type active) then
        let activeContainer := findContainer (rows st) (items st) (id active) in
        let overContainer := findContainer (rows st) (items st) (id over) in
        match activeContainer, overContainer with
        | Some ac, Some oc =>
            if negb (truthy_id activeContainer)
               || negb (truthy_id overContainer)
               || String.eqb ac oc
            then
              items' <- moveWithin activeContainer (id active) (id over)
                                   (items st) ;;
              Done (mkState (rows st) items' None)
            else
              items' <- moveAcross (rows st) ac oc (id active) (id over)
                                   (items st) ;;
              Done (mkState (rows st) items' None)
        | _, _ =>
            items' <- moveWithin activeContainer (id active) (id over)
                                 (items st) ;;
            Done (mkState (rows st) items' None)
        end
      else Done (with_activeId st None)
  end.

(** ** Rendering *)

(** A [TierRow] or the [ImageBank] rendered with [items[id] || []]:
    [items.map] throws when the value is not an array. *)
Definition renderItems (items : JS.object (list TierImage)) (id : string)
  : outcome (list TierImage) :=
  match itemsOrEmpty items id with
  | Some l => Done l
  | None => TypeError
  end.

(** [rows.map(row => <TierRow row={row} items={items[row.id] || []} />)] *)
Fixpoint renderRows (items : JS.object (list TierImage))
  (rows : list TierRowData) : outcome (list (TierRowData * list TierImage)) :=
  match rows with
  | [] => Done []
  | row :: rest =>
      l <- renderItems items (row_id row) ;;
      shown <- renderRows items rest ;;
      Done ((row, l) :: shown)
  end.

(** What [App] renders: each row with its items, then the image bank. *)
Definition render (st : State)
  : outcome (list (TierRowData * list TierImage) * list TierImage) :=
  shown <- renderRows (items st) (rows st) ;;
  bank <- renderItems (items st) UNRANKED_ID ;;
  Done (shown, bank).

(** ** Snapshots *)

(** A value as [JSON.parse] returns it.  The text of a document is not
    modelled: [JSON.stringify] followed by [JSON.parse] gives back a
    structurally equal value for the arrays, objects and strings the
    state is made of.  Numbers are the integer-valued ones. *)
Inductive JSValue : Type :=
| JNull
| JBool (b : bool)
| JNumber (n : Z)
| JString (s : string)
| JArray (elements : list JSValue)
| JObject (fields : JS.object JSValue).

(** Truthiness, as [&&] and [if] test it. *)
Definition truthy (v : JSValue) : bool :=
  match v with
  | JNull => false
  | JBool b => b
  | JNumber n => negb (n =? 0)%Z
  | JString s => negb (String.eqb s "")
  | JArray _ | JObject _ => true
  end.

(** [v.name] on a value that is not [null]; [None] is [undefined]. *)
Definition prop (v : JSValue) (name : string) : option JSValue :=
  match v with
  | JObject fields => JS.get fields name
  | _ => None
  end.

(** The typed state seen as a run-time value. *)
Definition js_of_row (row : TierRowData) : JSValue :=
  JObject [("id", JString (row_id row));
           ("label", JString (label row));
           ("color", JString (color row))].

Definition js_of_image (item : TierImage) : JSValue :=
  JObject [("id", JString (image_id item)); ("src", JString (src item))].

Definition js_of_rows (rows : list TierRowData) : JSValue :=
  JArray (map js_of_row rows).

Definition js_of_items (items : JS.object (list TierImage)) : JSValue :=
  JObject (map (fun e => (fst e, JArray (map js_of_image (snd e)))) items).

(** A run-time value read at the type the program declares for it;
    [None] when it does not have that shape. *)
Definition as_string (v : JSValue) : option string :=
  match v with
  | JString s => Some s
  | _ => None
  end.

Definition field_string (v : JSValue) (name : string) : option string :=
  match prop v name with
  | Some w => as_string w
  | None => None
  end.

Definition as_row (v : JSValue) : option TierRowData :=
  match field_string v "id", field_string v "label", field_string v "color"
  with
  | Some i, Some l, Some c => Some (mkRow i l c)
  | _, _, _ => None
  end.

Definition as_image (v : JSValue) : option TierImage :=
  match field_string v "id", field_string v "src" with
  | Some i, Some s => Some (mkImage i s)
  | _, _ => None
  end.

Fixpoint all_some {A B : Type} (f : A -> option B) (l : list A)
  : option (list B) :=
  match l with
  | [] => Some []
  | x :: t =>
      match f x, all_some f t with
      | Some y, Some r => Some (y :: r)
      | _, _ => None
      end
  end.

Definition as_array {B : Type} (f : JSValue -> option B) (v : JSValue)
  : option (list B) :=
  match v with
  | JArray elements => all_some f elements
  | _ => None
  end.

Definition as_rows (v : JSValue) : option (list TierRowData) :=
  as_array as_row v.

Definition as_items (v : JSValue) : option (JS.object (list TierImage)) :=
  match v with
  | JObject fields =>
      all_some (fun e => option_map (pair (fst e)) (as_array as_image (snd e)))
               fields
  | _ => None
  end.

(** The value [handleSave] and [handleDownload] serialise:
    [{ savedRows: rows, savedItems: items }]. *)
Definition encode (rows : list TierRowData)
  (items : JS.object (list TierImage)) : JSValue :=
  JObject [("savedRows", js_of_rows rows); ("savedItems", js_of_items items)].

(** The test of [handleUpload]:
    [data && data.savedRows && data.savedItems]; the two values it passes
    to [setRows] and [setItems] when the test succeeds. *)
Definition accepted (data : JSValue) : option (JSValue * JSValue) :=
  if truthy data then
    match prop data "savedRows", prop data "savedItems" with
    | Some savedRows, Some savedItems =>
        if truthy savedRows && truthy savedItems
        then Some (savedRows, savedItems)
        else None
    | _, _ => None
    end
  else None.

(** [!data.name]: the property is missing or falsy. *)
Definition missing_or_falsy (data : JSValue) (name : string) : bool :=
  match prop data name with
  | Some v => negb (truthy v)
  | None => true
  end.

(** The two state atoms as run-time values, and what [reader.onload] of
    [handleUpload] reports: the message ['Backup loaded successfully!'],
    or the alert ['Failed to load backup. ...'] of the [catch] block (the
    malformed-snapshot condition). *)
Record Atoms : Type := mkAtoms { rowsValue : JSValue; itemsValue : JSValue }.

Inductive Report : Type :=
| BackupLoaded
| LoadFailed.

(** [reader.onload] of [handleUpload].  [parsed] is [None] when the file
    content is not a string or [JSON.parse] throws; every failure ends in
    the [catch] block, which alerts and sets nothing. *)
Definition handleUpload (parsed : option JSValue) (cur : Atoms)
  : Atoms * Report :=
  match parsed with
  | None => (cur, LoadFailed)
  | Some data =>
      match accepted data with
      | Some (savedRows, savedItems) =>
          (mkAtoms savedRows savedItems, BackupLoaded)
      | None => (cur, LoadFailed)
      end
  end.

(** The effect that loads from local storage on the first render.
    [savedData] is [None] when nothing is stored, [Some None] when
    [JSON.parse] throws.  Destructuring [null] throws as well; the
    [catch] block resets to the default state. *)
Definition loadSaved (savedData : option (option JSValue)) (cur : Atoms)
  : Atoms :=
  let default :=
    mkAtoms (js_of_rows defaultRows) (js_of_items defaultItems) in
  match savedData with
  | None => cur
  | Some None => default
  | Some (Some JNull) => default
  | Some (Some data) =>
      match prop data "savedRows", prop data "savedItems" with
      | Some savedRows, Some savedItems =>
          if truthy savedRows && truthy savedItems
          then mkAtoms savedRows savedItems
          else cur
      | _, _ => cur
      end
  end.

Definition atoms_of (st : State) : Atoms :=
  mkAtoms (js_of_rows (rows st)) (js_of_items (items st)).

(** The state atoms read at their declared types. *)
Definition typed (a : Atoms) (activeId : option string) : option State :=
  match as_rows (rowsValue a), as_items (itemsValue a) with
  | Some r, Some i => Some (mkState r i activeId)
  | _, _ => None
  end.

(** [decode]: a document accepted by [handleUpload], read at the declared
    types. *)
Definition decode (data : JSValue)
  : option (list TierRowData * JS.object (list TierImage)) :=
  match accepted data with
  | Some (savedRows, savedItems) =>
      match as_rows savedRows, as_items savedItems with
      | Some r, Some i => Some (r, i)
      | _, _ => None
      end
  | None => None
  end.

(** Two hand-edited snapshots: one whose [savedItems] has no
    [UNRANKED_ID] key, one whose [savedItems] has no key for the row
    [A]. *)
Definition snapshot_without_unranked : JSValue :=
  encode [mkRow "S" "S" "#ff7f7f"] [("S", [mkImage "i1" "data:1"])].

Definition snapshot_without_row_key : JSValue :=
  encode [mkRow "S" "S" "#ff7f7f"; mkRow "A" "A" "#ffbf7f"]
         [("S", [mkImage "i1" "data:1"]); ("unranked", [])].

(** ** Runs of the application *)

(** The mutations the user interface offers. *)
Inductive Action : Type :=
| AddRow (uuid : string)
| UpdateRow (id newLabel newColor : string)
| DeleteRow (id : string)
| ImageUpload (newImages : list TierImage)
| DragStart (id : string)
| DragEnd (event : DragEndEvent).

Definition perform (a : Action) (st : State) : outcome State :=
  match a with
  | AddRow uuid => Done (handleAddRow uuid st)
  | UpdateRow id newLabel newColor =>
      Done (handleUpdateRow id newLabel newColor st)
  | DeleteRow id => handleDeleteRow id st
  | ImageUpload newImages => handleImageUpload newImages st
  | DragStart id => Done (handleDragStart id st)
  | DragEnd event => handleDragEnd event st
  end.

Fixpoint run (acts : list Action) (st : State) : outcome State :=
  match acts with
  | [] => Done st
  | a :: rest => st' <- perform a st ;; run rest st'
  end.

(** Every item handed to the application by an import, in order. *)
Fixpoint imported (acts : list Action) : list TierImage :=
  match acts with
  | [] => []
  | ImageUpload newImages :: rest => newImages ++ imported rest
  | _ :: rest => imported rest
  end.

(** The items of all containers, container after container. *)
Definition all_items (items : JS.object (list TierImage)) : list TierImage :=
  List.concat (map snd items).

(** [crypto.randomUUID()] returns a string of 36 characters. *)
Definition is_uuid (s : string) : bool := (String.length s =? 36)%nat.

(** An item with the id sits in some container of the store. *)
Definition holds_item (items : JS.object (list TierImage)) (id : string)
  : bool :=
  match scanContainers items id with
  | Some _ => true
  | None => false
  end.

(** The draggables the components register: a [TierRow] per row, with
    type ['row'], and a [SortableImage] per item, with type ['image']. *)
Definition draggable (st : State) (t : Target) : bool :=
  match data_type t with
  | Some ROW => JS.some (row_is (id t)) (rows st)
  | Some IMAGE => holds_item (items st) (id t)
  | None => false
  end.

(** What the user interface can ask for in a state: a fresh id for a new
    row, the delete button of a rendered row, images whose ids are
    UUIDs, a drag of a registered draggable ended over nothing or over
    any target. *)
Definition offered (st : State) (a : Action) : bool :=
  match a with
  | AddRow uuid =>
      is_uuid uuid
      && match JS.get (items st) (String.append "new-row-" uuid) with
         | None => true
         | Some _ => false
         end
  | UpdateRow _ _ _ => true
  | DeleteRow id => JS.some (row_is id) (rows st)
  | ImageUpload newImages =>
      forallb (fun item => is_uuid (image_id item)) newImages
  | DragStart _ => true
  | DragEnd event => draggable st (active event)
  end.

(** A sequence of mutations each of which is offered in the state it is
    performed in (a sequence is followed as far as it runs). *)
Fixpoint supported (acts : list Action) (st : State) : bool :=
  match acts with
  | [] => true
  | a :: rest =>
      offered st a
      && match perform a st with
         | Done st' => supported rest st'
         | _ => true
         end
  end.

(** A run of the application: two images are imported, a row is added,
    the first image goes to [S], the second to the new row, [S] is
    dragged onto [B], the second image is dragged back onto the first,
    and [S] is deleted. *)
Definition sample_uuid (n : string) : string :=
  String.append "00000000-0000-4000-8000-00000000000" n.

Definition sample_run : list Action :=
  [ ImageUpload [mkImage (sample_uuid "1") "data:1";
                 mkImage (sample_uuid "2") "data:2"];
    AddRow (sample_uuid "3");
    DragStart (sample_uuid "1");
    DragEnd (mkEvent (mkTarget (sample_uuid "1") (Some IMAGE))
                     (Some (mkTarget "S" (Some ROW))));
    DragEnd (mkEvent (mkTarget (sample_uuid "2") (Some IMAGE))
                     (Some (mkTarget (String.append "new-row-" (sample_uuid "3"))
                                     (Some ROW))));
    UpdateRow "S" "Best" "#ffffff";
    DragEnd (mkEvent (mkTarget "S" (Some ROW)) (Some (mkTarget "B" (Some ROW))));
    DragEnd (mkEvent (mkTarget (sample_uuid "2") (Some IMAGE))
                     (Some (mkTarget (sample_uuid "1") (Some IMAGE))));
    DragEnd (mkEvent (mkTarget (sample_uuid "2") (Some IMAGE)) None);
    DeleteRow "S" ].

(** The ids of the items are UUIDs. *)
Definition uuid_items (l : list TierImage) : Prop :=
  Forall (fun item => is_uuid (image_id item) = true) l.

(** The states the application moves through: the store is an object
    with the [UNRANKED_ID] key and a key per row, no row carries the
    reserved id or the id of an item, and the ids of the items are
    UUIDs. *)
Definition consistent (st : State) : Prop :=
  JS.wf_object (items st)
  /\ JS.get (items st) UNRANKED_ID <> None
  /\ Forall (fun id => JS.get (items st) id <> None
                       /\ id <> UNRANKED_ID /\ is_uuid id = false)
            (map row_id (rows st))
  /\ (forall k l, JS.get (items st) k = Some l -> uuid_items l).

(** ** The drag overlay and the row editors *)

(** The first result of a loop that returns as soon as its body finds
    something. *)
Fixpoint first_found {A B : Type} (f : A -> option B) (l : list A)
  : option B :=
  match l with
  | [] => None
  | x :: t =>
      match f x with
      | Some y => Some y
      | None => first_found f t
      end
  end.

(** [getActiveItem]: nothing when [activeId] is falsy; otherwise the
    first item with that id, containers taken in enumeration order. *)
Definition getActiveItem (st : State) : option TierImage :=
  match activeId st with
  | Some a =>
      if truthy_id (Some a) then
        first_found
          (fun containerId =>
             match JS.get (items st) containerId with
             | Some l => find (image_is a) l
             | None => None
             end)
          (JS.keys (items st))
      else None
  | None => None
  end.

(** [getActiveRow]: nothing when [activeId] is falsy; otherwise
    [rows.find(row => row.id === activeId)]. *)
Definition getActiveRow (st : State) : option TierRowData :=
  match activeId st with
  | Some a => if truthy_id (Some a) then find (row_is a) (rows st) else None
  | None => None
  end.

(** [handleLabelChange] and [handleColorChange] of [TierRow]: the row
    the component was rendered with supplies the id and the field that is
    not edited. *)
Definition handleLabelChange (row : TierRowData) (value : string) (st : State)
  : State :=
  handleUpdateRow (row_id row) value (color row) st.

Definition handleColorChange (row : TierRowData) (newColor : string)
  (st : State) : State :=
  handleUpdateRow (row_id row) (label row) newColor st.

(** The items the rendered rows and the image bank show, in display
    order. *)
Definition shown_items
  (shown : list (TierRowData * list TierImage) * list TierImage)
  : list TierImage :=
  List.concat (map snd (fst shown)) ++ snd shown.

(** The sequence of a container of the store, empty when the store has
    no such key. *)
Definition contents (items : JS.object (list TierImage)) (id : string)
  : list TierImage :=
  match JS.get items id with
  | Some l => l
  | None => []
  end.

(** The keys of the store are the bank and one key per row. *)
Definition keys_match (st : State) : Prop :=
  Permutation (JS.keys (items st)) (UNRANKED_ID :: map row_id (rows st)).

(** * Properties *)

(** ** Arrays *)

Section ArrayFacts.
Context {A : Type}.
Implicit Types (l : list A) (p : A -> bool).

Lemma first_index_split p l n :
  JS.first_index p l = Some n ->
  exists l1 x l2,
    l = l1 ++ x :: l2 /\ List.length l1 = n /\ p x = true
    /\ existsb p l1 = false.
Proof.
  revert n; induction l as [|a t IH]; intros n H; simpl in H.
  - discriminate.
  - destruct (p a) eqn:Hp.
    + injection H as <-. exists [], a, t. auto.
    + destruct (JS.first_index p t) as [m|] eqn:Ht; simpl in H; [|discriminate].
      injection H as <-.
      destruct (IH m eq_refl) as (l1 & x & l2 & -> & <- & Hx & Hl1).
      exists (a :: l1), x, l2. simpl. rewrite Hp, Hl1. auto.
Qed.

Lemma first_index_app p l1 x l2 :
  existsb p l1 = false -> p x = true ->
  JS.first_index p (l1 ++ x :: l2) = Some (List.length l1).
Proof.
  induction l1 as [|a t IH]; simpl; intros H Hx.
  - now rewrite Hx.
  - apply orb_false_iff in H as [Ha Ht]. rewrite Ha, (IH Ht Hx). reflexivity.
Qed.

Lemma first_index_none p l :
  JS.first_index p l = None <-> existsb p l = false.
Proof.
  induction l as [|a t IH]; simpl.
  - tauto.
  - destruct (p a); simpl.
    + split; discriminate.
    + destruct (JS.first_index p t); simpl.
      * split; [discriminate|]. intros H. apply IH in H. discriminate.
      * tauto.
Qed.

Lemma first_index_some p l :
  existsb p l = true -> exists n, JS.first_index p l = Some n.
Proof.
  intros H. destruct (JS.first_index p l) as [n|] eqn:E; eauto.
  apply first_index_none in E. congruence.
Qed.

Lemma findIndex_nat p l n :
  JS.first_index p l = Some n -> JS.findIndex p l = Z.of_nat n.
Proof. unfold JS.findIndex. now intros ->. Qed.

Lemma findIndex_absent p l :
  existsb p l = false -> JS.findIndex p l = (-1)%Z.
Proof.
  intros H. unfold JS.findIndex.
  now rewrite (proj2 (first_index_none p l) H).
Qed.

Lemma findIndex_found p l :
  JS.findIndex p l <> (-1)%Z ->
  exists n, JS.first_index p l = Some n /\ JS.findIndex p l = Z.of_nat n.
Proof.
  unfold JS.findIndex. destruct (JS.first_index p l) as [n|]; [eauto|tauto].
Qed.

Lemma relative_start_nat len n :
  (n <= len)%nat -> JS.relative_start len (Z.of_nat n) = n.
Proof.
  intros H. unfold JS.relative_start.
  destruct (Z.ltb_spec (Z.of_nat n) 0); [lia|].
  rewrite Nat2Z.id. lia.
Qed.


Lemma firstn_length_app l1 l2 : firstn (List.length l1) (l1 ++ l2) = l1.
Proof. induction l1; simpl; congruence. Qed.

Lemma skipn_length_app l1 l2 : skipn (List.length l1) (l1 ++ l2) = l2.
Proof. induction l1; simpl; congruence. Qed.

Lemma skipn_S_length_app l1 x l2 :
  skipn (S (List.length l1)) (l1 ++ x :: l2) = l2.
Proof. induction l1; simpl; auto. Qed.

Lemma splice_delete_at l1 x l2 :
  JS.splice_delete (l1 ++ x :: l2) (Z.of_nat (List.length l1))
  = ([x], l1 ++ l2).
Proof.
  unfold JS.splice_delete.
  rewrite relative_start_nat by (rewrite length_app; simpl; lia).
  now rewrite skipn_length_app, firstn_length_app, skipn_S_length_app.
Qed.

Lemma splice_delete_perm l s removed l' :
  JS.splice_delete l s = (removed, l') ->
  Permutation l (removed ++ l') /\ (List.length removed <= 1)%nat.
Proof.
  unfold JS.splice_delete.
  set (k := JS.relative_start (List.length l) s). intros H.
  assert (H1 : removed = firstn 1 (skipn k l)) by congruence.
  assert (H2 : l' = firstn k l ++ skipn 1 (skipn k l))
    by (rewrite skipn_skipn; change (1 + k)%nat with (S k); congruence).
  subst removed l'. clear H.
  split.
  - rewrite <- (firstn_skipn k l) at 1.
    destruct (skipn k l) as [|y r]; simpl.
    + reflexivity.
    + symmetry. apply Permutation_middle.
  - destruct (skipn k l); simpl; lia.
Qed.

Lemma splice_insert_perm l s x :
  Permutation (JS.splice_insert l s x) (x :: l).
Proof.
  unfold JS.splice_insert.
  set (k := JS.relative_start (List.length l) s).
  rewrite <- (firstn_skipn k l) at 3.
  symmetry. apply Permutation_middle.
Qed.

Lemma splice_insert_at l1 l2 x :
  JS.splice_insert (l1 ++ l2) (Z.of_nat (List.length l1)) x
  = l1 ++ x :: l2.
Proof.
  unfold JS.splice_insert.
  rewrite relative_start_nat by (rewrite length_app; lia).
  now rewrite skipn_length_app, firstn_length_app.
Qed.

Lemma arrayMove_perm l i j l' :
  JS.arrayMove l i j = Some l' -> Permutation l' l.
Proof.
  unfold JS.arrayMove.
  destruct (JS.splice_delete l i) as [removed newArray] eqn:E.
  apply splice_delete_perm in E as [HP Hlen].
  destruct removed as [|x r]; [discriminate|].
  intros H. injection H as <-.
  destruct r; [|simpl in Hlen; lia].
  rewrite splice_insert_perm. symmetry. exact HP.
Qed.

(** A move between two positions of the array: the element at [i] is
    taken out and put back at position [j] of what remains. *)
Lemma arrayMove_in_range l i j x :
  nth_error l i = Some x -> (j < List.length l)%nat ->
  JS.arrayMove l (Z.of_nat i) (Z.of_nat j)
  = Some (JS.insert_at j x (JS.remove_at i l)).
Proof.
  intros Hi Hj.
  destruct (nth_error_split l i Hi) as (l1 & l2 & -> & <-).
  unfold JS.arrayMove.
  destruct (Z.ltb_spec (Z.of_nat j) 0); [lia|].
  rewrite splice_delete_at.
  unfold JS.splice_insert, JS.insert_at, JS.remove_at.
  rewrite firstn_length_app, skipn_S_length_app.
  rewrite length_app in *. simpl in Hj.
  rewrite relative_start_nat by lia.
  reflexivity.
Qed.

Lemma insert_at_nth j x l :
  (j <= List.length l)%nat -> nth_error (JS.insert_at j x l) j = Some x.
Proof.
  intros H. unfold JS.insert_at.
  rewrite nth_error_app2 by (rewrite length_firstn; lia).
  rewrite length_firstn.
  replace (j - Nat.min j (List.length l))%nat with 0%nat by lia.
  reflexivity.
Qed.

Lemma remove_at_insert_at j x l :
  (j <= List.length l)%nat -> JS.remove_at j (JS.insert_at j x l) = l.
Proof.
  intros H. unfold JS.insert_at, JS.remove_at.
  assert (Hl : List.length (firstn j l) = j)
    by (rewrite length_firstn; lia).
  rewrite firstn_app, skipn_app, Hl.
  rewrite firstn_all2 by lia.
  rewrite skipn_all2 with (l := firstn j l) by lia.
  replace (j - j)%nat with 0%nat by lia.
  replace (S j - j)%nat with 1%nat by lia.
  simpl. rewrite app_nil_r. apply firstn_skipn.
Qed.

Lemma length_remove_at i l :
  (i < List.length l)%nat ->
  List.length (JS.remove_at i l) = (List.length l - 1)%nat.
Proof.
  intros H. unfold JS.remove_at.
  rewrite length_app, length_firstn, length_skipn. lia.
Qed.
End ArrayFacts.

(** ** Objects *)

Section ObjectFacts.
Context {V : Type}.
Implicit Types (o : JS.object V) (k : string) (v : V).

Lemma get_set_same o k v : JS.get (JS.set o k v) k = Some v.
Proof.
  induction o as [|[k' v'] t IH]; simpl.
  - now rewrite String.eqb_refl.
  - destruct (String.eqb k' k) eqn:E; simpl; now rewrite E.
Qed.

Lemma get_set_other o k v k' :
  k <> k' -> JS.get (JS.set o k v) k' = JS.get o k'.
Proof.
  intros Hne. induction o as [|[k0 v0] t IH]; simpl.
  - apply String.eqb_neq in Hne. now rewrite Hne.
  - destruct (String.eqb k0 k) eqn:E; simpl.
    + apply String.eqb_eq in E. subst k0.
      apply String.eqb_neq in Hne. now rewrite Hne.
    + now rewrite IH.
Qed.

Lemma get_in_keys o k : JS.get o k <> None <-> In k (JS.keys o).
Proof.
  induction o as [|[k' v'] t IH]; simpl.
  - tauto.
  - destruct (String.eqb_spec k' k).
    + split; [auto | discriminate].
    + rewrite IH. tauto.
Qed.

Lemma get_none_keys o k : JS.get o k = None <-> ~ In k (JS.keys o).
Proof.
  rewrite <- get_in_keys. destruct (JS.get o k); split; try tauto; try congruence.
  intros H. exfalso. apply H. discriminate.
Qed.

Lemma keys_set_present o k v :
  JS.get o k <> None -> JS.keys (JS.set o k v) = JS.keys o.
Proof.
  induction o as [|[k' v'] t IH]; simpl; intros H.
  - congruence.
  - destruct (String.eqb k' k) eqn:E; simpl.
    + reflexivity.
    + f_equal. now apply IH.
Qed.

Lemma set_absent o k v : JS.get o k = None -> JS.set o k v = o ++ [(k, v)].
Proof.
  induction o as [|[k' v'] t IH]; simpl; intros H.
  - reflexivity.
  - destruct (String.eqb k' k); [discriminate|]. now rewrite IH.
Qed.

Lemma get_delete_same o k : JS.get (JS.delete o k) k = None.
Proof.
  induction o as [|[k' v'] t IH]; simpl.
  - reflexivity.
  - destruct (String.eqb k' k) eqn:E; simpl; [assumption|]. now rewrite E.
Qed.

Lemma get_delete_other o k k' :
  k <> k' -> JS.get (JS.delete o k) k' = JS.get o k'.
Proof.
  intros Hne. induction o as [|[k0 v0] t IH]; simpl.
  - reflexivity.
  - destruct (String.eqb_spec k0 k); simpl.
    + subst k0. apply String.eqb_neq in Hne. now rewrite Hne.
    + now rewrite IH.
Qed.

Lemma delete_absent o k : JS.get o k = None -> JS.delete o k = o.
Proof.
  induction o as [|[k' v'] t IH]; simpl; intros H.
  - reflexivity.
  - destruct (String.eqb k' k); [discriminate|]. simpl. now rewrite IH.
Qed.

Lemma keys_delete o k :
  JS.keys (JS.delete o k) = filter (fun x => negb (String.eqb x k)) (JS.keys o).
Proof.
  induction o as [|[k' v'] t IH]; simpl.
  - reflexivity.
  - destruct (String.eqb k' k); simpl; now rewrite IH.
Qed.

Lemma wf_set o k v : JS.wf_object o -> JS.wf_object (JS.set o k v).
Proof.
  unfold JS.wf_object. intros H.
  destruct (JS.get o k) eqn:E.
  - rewrite keys_set_present; [assumption | congruence].
  - rewrite set_absent by assumption. unfold JS.keys. rewrite map_app. simpl.
    apply get_none_keys in E.
    apply NoDup_app; auto.
    + constructor; [simpl; tauto | constructor].
    + intros x Hx [<- | []]. contradiction.
Qed.

Lemma wf_delete o k : JS.wf_object o -> JS.wf_object (JS.delete o k).
Proof.
  unfold JS.wf_object. rewrite keys_delete. apply NoDup_filter.
Qed.
End ObjectFacts.

(** The multiset of the items of a store under [set] and [delete]. *)
Section StoreFacts.
Implicit Types (o : JS.object (list TierImage)) (k : string).

Lemma all_items_set o k v :
  JS.get o k = Some v ->
  exists rest,
    Permutation (all_items o) (v ++ rest)
    /\ forall v', Permutation (all_items (JS.set o k v')) (v' ++ rest).
Proof.
  unfold all_items.
  induction o as [|[k' w] t IH]; simpl; intros H.
  - discriminate.
  - destruct (String.eqb k' k) eqn:E.
    + injection H as ->. exists (List.concat (map snd t)). split; intros; reflexivity.
    + destruct (IH H) as (rest & H1 & H2).
      exists (w ++ rest). split.
      * rewrite H1. rewrite !app_assoc. apply Permutation_app_tail.
        apply Permutation_app_comm.
      * intros v'. simpl. rewrite H2. rewrite !app_assoc.
        apply Permutation_app_tail. apply Permutation_app_comm.
Qed.

Lemma all_items_set_perm o k v v' :
  JS.get o k = Some v -> Permutation v' v ->
  Permutation (all_items (JS.set o k v')) (all_items o).
Proof.
  intros H HP. destruct (all_items_set o k v H) as (rest & H1 & H2).
  rewrite H2, H1. now apply Permutation_app_tail.
Qed.

Lemma all_items_set_fresh o k :
  JS.get o k = None -> all_items (JS.set o k []) = all_items o.
Proof.
  intros H. rewrite set_absent by assumption.
  unfold all_items. rewrite map_app, concat_app. simpl.
  now rewrite app_nil_r.
Qed.

Lemma all_items_delete o k v :
  JS.wf_object o -> JS.get o k = Some v ->
  Permutation (all_items o) (v ++ all_items (JS.delete o k)).
Proof.
  unfold all_items, JS.wf_object.
  induction o as [|[k' w] t IH]; simpl; intros Hwf H.
  - discriminate.
  - inversion Hwf as [|? ? Hnot Hwf']; subst.
    destruct (String.eqb_spec k' k).
    + subst k'. injection H as ->. simpl.
      fold (JS.delete t k). rewrite delete_absent; [reflexivity|].
      now apply get_none_keys.
    + simpl. rewrite (IH Hwf' H). rewrite !app_assoc.
      apply Permutation_app_tail. apply Permutation_app_comm.
Qed.

End StoreFacts.

(** ** The container resolver *)

Lemma find_weaken {A : Type} (f g : A -> bool) (l : list A) (x : A) :
  find f l = Some x ->
  (forall y, g y = true -> f y = true) ->
  g x = true ->
  find g l = Some x.
Proof.
  intros H Hgf Hx. induction l as [|a t IH]; simpl in *.
  - discriminate.
  - destruct (f a) eqn:Hf.
    + injection H as ->. now rewrite Hx.
    + destruct (g a) eqn:Hg.
      * apply Hgf in Hg. congruence.
      * now apply IH.
Qed.

Lemma scanContainers_some items x c :
  scanContainers items x = Some c ->
  exists l, JS.get items c = Some l /\ JS.some (image_is x) l = true.
Proof.
  unfold scanContainers. intros H. apply find_some in H as [_ H].
  destruct (JS.get items c) as [l|]; [eauto | discriminate].
Qed.

Lemma scanContainers_none items x k l :
  scanContainers items x = None ->
  JS.get items k = Some l -> JS.some (image_is x) l = false.
Proof.
  unfold scanContainers. intros H Hk.
  assert (Hin : In k (JS.keys items)) by (apply get_in_keys; congruence).
  apply (find_none _ _ H) in Hin. now rewrite Hk in Hin.
Qed.

Lemma findContainer_container rows items x :
  x = UNRANKED_ID \/ JS.some (row_is x) rows = true ->
  findContainer rows items x = Some x.
Proof.
  unfold findContainer. intros [-> | ->].
  - reflexivity.
  - now rewrite orb_true_r.
Qed.

(** Taking an item with another id out of one container does not change
    where [findContainer] finds an id. *)
Lemma findContainer_after_removal rows items x src l l' dst :
  findContainer rows items x = Some dst ->
  JS.get items src = Some l ->
  (JS.some (image_is x) l' = true -> JS.some (image_is x) l = true) ->
  src <> dst ->
  findContainer rows (JS.set items src l') x = Some dst.
Proof.
  unfold findContainer. intros H Hsrc Hl Hne.
  destruct (String.eqb x UNRANKED_ID || JS.some (row_is x) rows);
    [assumption|].
  unfold scanContainers in *.
  rewrite keys_set_present by congruence.
  apply find_some in H as H'. destruct H' as [_ Hdst].
  eapply find_weaken; [exact H | |].
  - intros k. destruct (String.eqb_spec src k) as [<- | Hk].
    + rewrite get_set_same, Hsrc. exact Hl.
    + now rewrite get_set_other.
  - now rewrite get_set_other.
Qed.

(** ** The three branches of [handleDragEnd] *)

Lemma image_not_row t :
  data_type t = Some IMAGE ->
  is_type ROW (data_type t) = false /\ is_type IMAGE (data_type t) = true.
Proof. now intros ->. Qed.

Lemma eqb_empty_false s : s <> "" -> String.eqb s "" = false.
Proof. apply String.eqb_neq. Qed.

(** The updater of the cross-container branch, when the dragged item is
    in the source and the destination exists. *)
Lemma moveAcross_done rows src dst a o prev l1 m l2 d :
  src <> dst ->
  JS.get prev src = Some (l1 ++ m :: l2) ->
  image_is a m = true -> existsb (image_is a) l1 = false ->
  JS.get prev dst = Some d ->
  findContainer rows prev o = Some dst ->
  (JS.some (image_is o) (l1 ++ l2) = true ->
   JS.some (image_is o) (l1 ++ m :: l2) = true) ->
  moveAcross rows src dst a o prev
  = Done (JS.set (JS.set prev src (l1 ++ l2)) dst
            (if String.eqb dst o then d ++ [m]
             else if negb (JS.findIndex (image_is o) d =? -1)%Z
                  then JS.splice_insert d (JS.findIndex (image_is o) d) m
                  else d ++ [m])).
Proof.
  intros Hne Hsrc Hm Hl1 Hdst Hfc Hsome.
  unfold moveAcross. rewrite Hsrc.
  rewrite (findIndex_nat _ _ _ (first_index_app _ l1 m l2 Hl1 Hm)).
  rewrite splice_delete_at.
  rewrite (findContainer_after_removal rows prev o src _ (l1 ++ l2) dst
             Hfc Hsrc Hsome Hne).
  rewrite get_set_other by assumption. rewrite Hdst.
  unfold JS.push. destruct (String.eqb dst o); [reflexivity|].
  destruct (negb (JS.findIndex (image_is o) d =? -1)%Z); reflexivity.
Qed.

Lemma some_without_middle (p : TierImage -> bool) l1 m l2 :
  JS.some p (l1 ++ l2) = true -> JS.some p (l1 ++ m :: l2) = true.
Proof.
  unfold JS.some. rewrite !existsb_app. simpl.
  intros H. apply orb_true_iff in H as [-> | ->]; auto.
  now rewrite !orb_true_r.
Qed.

(** C5. A drag of an item whose source container [src] differs from the
    container [dst] the over id resolves to: the source loses the item
    and keeps the rest in order; a drop on the destination container
    itself appends the item to the destination, a drop on an item of the
    destination inserts it immediately before that item; no other
    container changes and the rows are untouched. *)
Theorem cross_container_move
  (st : State) (a o : Target) (src dst : string)
  (l1 l2 d : list TierImage) (m : TierImage) :
  data_type a = Some IMAGE ->
  findContainer (rows st) (items st) (id a) = Some src ->
  findContainer (rows st) (items st) (id o) = Some dst ->
  src <> dst -> src <> "" -> dst <> "" ->
  JS.get (items st) src = Some (l1 ++ m :: l2) ->
  image_id m = id a -> existsb (image_is (id a)) l1 = false ->
  JS.get (items st) dst = Some d ->
  exists items',
    handleDragEnd (mkEvent a (Some o)) st
    = Done (mkState (rows st) items' None)
    /\ JS.get items' src = Some (l1 ++ l2)
    /\ (id o = dst -> JS.get items' dst = Some (d ++ [m]))
    /\ (forall d1 y d2,
          id o <> dst -> d = d1 ++ y :: d2 ->
          image_id y = id o -> existsb (image_is (id o)) d1 = false ->
          JS.get items' dst = Some (d1 ++ m :: y :: d2))
    /\ (forall k, k <> src -> k <> dst ->
                  JS.get items' k = JS.get (items st) k)
    /\ JS.keys items' = JS.keys (items st).
Proof.
  intros Ha Hac Hoc Hne Hs Hd Hsrc Hm Hl1 Hdst.
  assert (Hm' : image_is (id a) m = true)
    by (unfold image_is; now apply String.eqb_eq).
  eexists. split.
  - unfold handleDragEnd. cbn [over active].
    destruct (image_not_row a Ha) as [-> ->]. cbn [andb].
    rewrite Hac, Hoc. unfold truthy_id.
    rewrite (eqb_empty_false _ Hs), (eqb_empty_false _ Hd).
    rewrite (proj2 (String.eqb_neq src dst) Hne). cbn [negb orb].
    rewrite (moveAcross_done (rows st) src dst (id a) (id o) (items st)
               l1 m l2 d Hne Hsrc Hm' Hl1 Hdst Hoc
               (some_without_middle _ l1 m l2)).
    reflexivity.
  - repeat split.
    + rewrite get_set_other by congruence. apply get_set_same.
    + intros E. rewrite get_set_same.
      now rewrite (proj2 (String.eqb_eq dst (id o)) (eq_sym E)).
    + intros d1 y d2 E -> Hy Hd1. rewrite get_set_same.
      rewrite (proj2 (String.eqb_neq dst (id o))) by congruence.
      assert (Hy' : image_is (id o) y = true)
        by (unfold image_is; now apply String.eqb_eq).
      rewrite (findIndex_nat _ _ _ (first_index_app _ d1 y d2 Hd1 Hy')).
      destruct (Z.eqb_spec (Z.of_nat (List.length d1)) (-1)); [lia|].
      cbn [negb]. now rewrite splice_insert_at.
    + intros k Hk1 Hk2. now rewrite !get_set_other by congruence.
    + rewrite !keys_set_present; try reflexivity.
      * congruence.
      * rewrite get_set_other by congruence. congruence.
Qed.

Lemma cross_container_move_witness :
  exists items',
    handleDragEnd
      (mkEvent (mkTarget "b" (Some IMAGE)) (Some (mkTarget "y" (Some IMAGE))))
      (mkState defaultRows
         (JS.set (JS.set defaultItems "S" [mkImage "a" "1"; mkImage "b" "2"])
                 "A" [mkImage "x" "3"; mkImage "y" "4"]) None)
    = Done (mkState defaultRows items' None)
    /\ JS.get items' "S" = Some [mkImage "a" "1"]
    /\ JS.get items' "A"
       = Some [mkImage "x" "3"; mkImage "b" "2"; mkImage "y" "4"].
Proof.
  destruct (cross_container_move
              (mkState defaultRows
                 (JS.set (JS.set defaultItems "S"
                            [mkImage "a" "1"; mkImage "b" "2"])
                         "A" [mkImage "x" "3"; mkImage "y" "4"]) None)
              (mkTarget "b" (Some IMAGE)) (mkTarget "y" (Some IMAGE))
              "S" "A" [mkImage "a" "1"] [] [mkImage "x" "3"; mkImage "y" "4"]
              (mkImage "b" "2"))
    as (items' & H1 & H2 & _ & H4 & _);
    try reflexivity; try discriminate.
  exists items'. split; [exact H1|]. split; [exact H2|].
  apply (H4 [mkImage "x" "3"] (mkImage "y" "4") []);
    try reflexivity; discriminate.
Defined.

(** The two worked cases of C5, evaluated. *)
Example cross_move_onto_item :
  handleDragEnd
    (mkEvent (mkTarget "b" (Some IMAGE)) (Some (mkTarget "y" (Some IMAGE))))
    (mkState defaultRows
       (JS.set (JS.set defaultItems "S" [mkImage "a" "1"; mkImage "b" "2"])
               "A" [mkImage "x" "3"; mkImage "y" "4"]) (Some "b"))
  = Done (mkState defaultRows
            (JS.set (JS.set defaultItems "S" [mkImage "a" "1"])
                    "A" [mkImage "x" "3"; mkImage "b" "2"; mkImage "y" "4"])
            None).
Proof. reflexivity. Qed.

Example cross_move_onto_empty_container :
  handleDragEnd
    (mkEvent (mkTarget "m" (Some IMAGE)) (Some (mkTarget "S" (Some ROW))))
    (mkState defaultRows
       (JS.set defaultItems UNRANKED_ID [mkImage "m" "1"]) (Some "m"))
  = Done (mkState defaultRows
            (JS.set defaultItems "S" [mkImage "m" "1"]) None).
Proof. reflexivity. Qed.

Lemma first_index_nth {A : Type} (p : A -> bool) (l : list A) (n : nat) :
  JS.first_index p l = Some n ->
  exists x, nth_error l n = Some x /\ p x = true /\ (n < List.length l)%nat.
Proof.
  intros H. destruct (first_index_split p l n H) as (l1 & x & l2 & -> & <- & Hx & _).
  exists x. repeat split; [|assumption|].
  - rewrite nth_error_app2, Nat.sub_diag by lia. reflexivity.
  - rewrite length_app. simpl. lia.
Qed.

(** The branch taken when both ids resolve to the same container. *)
Lemma handleDragEnd_same_container st a o c :
  data_type a = Some IMAGE ->
  findContainer (rows st) (items st) (id a) = Some c ->
  findContainer (rows st) (items st) (id o) = Some c ->
  handleDragEnd (mkEvent a (Some o)) st
  = (items' <- moveWithin (Some c) (id a) (id o) (items st) ;;
     Done (mkState (rows st) items' None)).
Proof.
  intros Ha Hac Hoc. unfold handleDragEnd. cbn [over active].
  destruct (image_not_row a Ha) as [-> ->]. cbn [andb].
  rewrite Hac, Hoc, String.eqb_refl, !orb_true_r. reflexivity.
Qed.

(** C7. A drag of an item over an item of the same container: the item
    at [fromIndex] is taken out and put back at [toIndex] of that
    sequence (it then sits at [toIndex], and the other items keep their
    order); nothing changes when the two indices are equal; no other
    container changes. *)
Theorem within_container_move
  (st : State) (a o : Target) (c : string) (l : list TierImage)
  (fromIndex toIndex : nat) :
  data_type a = Some IMAGE ->
  findContainer (rows st) (items st) (id a) = Some c ->
  findContainer (rows st) (items st) (id o) = Some c ->
  c <> "" -> id o <> "" ->
  JS.get (items st) c = Some l ->
  JS.first_index (image_is (id a)) l = Some fromIndex ->
  JS.first_index (image_is (id o)) l = Some toIndex ->
  exists items' l',
    handleDragEnd (mkEvent a (Some o)) st
    = Done (mkState (rows st) items' None)
    /\ JS.get items' c = Some l'
    /\ nth_error l' toIndex = nth_error l fromIndex
    /\ JS.remove_at toIndex l' = JS.remove_at fromIndex l
    /\ (fromIndex = toIndex -> items' = items st)
    /\ (forall k, k <> c -> JS.get items' k = JS.get (items st) k)
    /\ JS.keys items' = JS.keys (items st).
Proof.
  intros Ha Hac Hoc Hc Ho Hl Hi Hj.
  rewrite (handleDragEnd_same_container st a o c Ha Hac Hoc).
  unfold moveWithin, truthy_id.
  rewrite (eqb_empty_false _ Hc), (eqb_empty_false _ Ho), Hl.
  rewrite (findIndex_nat _ _ _ Hi), (findIndex_nat _ _ _ Hj).
  destruct (first_index_nth _ _ _ Hi) as (x & Hx & _ & Hlt).
  destruct (first_index_nth _ _ _ Hj) as (_ & _ & _ & Hlt').
  destruct (Z.eqb_spec (Z.of_nat fromIndex) (-1)); [lia|].
  destruct (Z.eqb_spec (Z.of_nat toIndex) (-1)); [lia|].
  destruct (Z.eqb_spec (Z.of_nat fromIndex) (Z.of_nat toIndex)) as [E|E];
    cbn [negb andb].
  - apply Nat2Z.inj in E. subst toIndex.
    exists (items st), l. repeat split; auto.
  - rewrite (arrayMove_in_range l fromIndex toIndex x Hx Hlt').
    eexists _, _. split; [reflexivity|].
    assert (Hle : (toIndex <= List.length (JS.remove_at fromIndex l))%nat)
      by (rewrite length_remove_at; lia).
    split; [apply get_set_same|].
    split; [rewrite Hx; now apply insert_at_nth|].
    split; [now apply remove_at_insert_at|].
    split; [intros; lia|].
    split; [intros k Hk; now rewrite get_set_other by congruence|].
    apply keys_set_present. congruence.
Qed.

(** The worked case of C7: in [[a,b,c,d]], [b] dragged onto [d]. *)
Example within_move_b_to_d :
  handleDragEnd
    (mkEvent (mkTarget "b" (Some IMAGE)) (Some (mkTarget "d" (Some IMAGE))))
    (mkState defaultRows
       (JS.set defaultItems "S"
          [mkImage "a" "1"; mkImage "b" "2"; mkImage "c" "3"; mkImage "d" "4"])
       (Some "b"))
  = Done (mkState defaultRows
            (JS.set defaultItems "S"
               [mkImage "a" "1"; mkImage "c" "3"; mkImage "d" "4";
                mkImage "b" "2"])
            None).
Proof. reflexivity. Qed.

Lemma within_container_move_witness :
  exists items' l',
    handleDragEnd
      (mkEvent (mkTarget "b" (Some IMAGE)) (Some (mkTarget "d" (Some IMAGE))))
      (mkState defaultRows
         (JS.set defaultItems "S"
            [mkImage "a" "1"; mkImage "b" "2"; mkImage "c" "3";
             mkImage "d" "4"])
         None)
    = Done (mkState defaultRows items' None)
    /\ JS.get items' "S" = Some l'
    /\ nth_error l' 3 = Some (mkImage "b" "2")
    /\ JS.remove_at 3 l' = [mkImage "a" "1"; mkImage "c" "3"; mkImage "d" "4"].
Proof.
  destruct (within_container_move
              (mkState defaultRows
                 (JS.set defaultItems "S"
                    [mkImage "a" "1"; mkImage "b" "2"; mkImage "c" "3";
                     mkImage "d" "4"])
                 None)
              (mkTarget "b" (Some IMAGE)) (mkTarget "d" (Some IMAGE)) "S"
              [mkImage "a" "1"; mkImage "b" "2"; mkImage "c" "3";
               mkImage "d" "4"] 1 3)
    as (items' & l' & H1 & H2 & H3 & H4 & _);
    try reflexivity; try discriminate.
  exists items', l'. repeat split; assumption.
Defined.

(** C8. A drag of a tier over a tier: when the ids differ the tier is
    taken out of its index and put back at the index the over tier had
    before the move, the others keeping their order; when the ids are
    equal the rows do not change; the store is untouched either way. *)
Theorem tier_reorder
  (st : State) (a o : Target) (oldIndex newIndex : nat) :
  data_type a = Some ROW -> data_type o = Some ROW ->
  JS.first_index (row_is (id a)) (rows st) = Some oldIndex ->
  JS.first_index (row_is (id o)) (rows st) = Some newIndex ->
  exists rows',
    handleDragEnd (mkEvent a (Some o)) st
    = Done (mkState rows' (items st) None)
    /\ nth_error rows' newIndex = nth_error (rows st) oldIndex
    /\ JS.remove_at newIndex rows' = JS.remove_at oldIndex (rows st)
    /\ (id a = id o -> rows' = rows st).
Proof.
  intros Ha Ho Hi Hj.
  unfold handleDragEnd. cbn [over active]. rewrite Ha, Ho. cbn [is_type andb].
  destruct (String.eqb_spec (id a) (id o)) as [E|E]; cbn [negb].
  - exists (rows st). rewrite E in Hi.
    assert (oldIndex = newIndex) by congruence. subst. auto.
  - unfold reorderRows.
    rewrite (findIndex_nat _ _ _ Hi), (findIndex_nat _ _ _ Hj).
    destruct (first_index_nth _ _ _ Hi) as (x & Hx & _ & Hlt).
    destruct (first_index_nth _ _ _ Hj) as (_ & _ & _ & Hlt').
    rewrite (arrayMove_in_range (rows st) oldIndex newIndex x Hx Hlt').
    eexists. split; [reflexivity|].
    assert (Hle : (newIndex <= List.length (JS.remove_at oldIndex (rows st)))%nat)
      by (rewrite length_remove_at; lia).
    split; [rewrite Hx; now apply insert_at_nth|].
    split; [now apply remove_at_insert_at|].
    intros; contradiction.
Qed.

Lemma tier_reorder_witness :
  exists rows',
    handleDragEnd
      (mkEvent (mkTarget "S" (Some ROW)) (Some (mkTarget "C" (Some ROW))))
      DEFAULT_STATE
    = Done (mkState rows' defaultItems None)
    /\ nth_error rows' 3 = Some (mkRow "S" "S" "#ff7f7f")
    /\ JS.remove_at 3 rows' = JS.remove_at 0 defaultRows.
Proof.
  destruct (tier_reorder DEFAULT_STATE
              (mkTarget "S" (Some ROW)) (mkTarget "C" (Some ROW)) 0 3)
    as (rows' & H1 & H2 & H3 & _); try reflexivity.
  exists rows'. repeat split; assumption.
Defined.

(** The worked case of C8: [S] dragged onto [C]. *)
Example tier_reorder_S_onto_C :
  handleDragEnd
    (mkEvent (mkTarget "S" (Some ROW)) (Some (mkTarget "C" (Some ROW))))
    DEFAULT_STATE
  = Done (mkState
            [ mkRow "A" "A" "#ffbf7f"; mkRow "B" "B" "#ffff7f";
              mkRow "C" "C" "#7fff7f"; mkRow "S" "S" "#ff7f7f";
              mkRow "D" "D" "#7fbfff" ]
            defaultItems None).
Proof. reflexivity. Qed.

(** C10. An item dropped on the body of the container that already holds
    it: rows and store are unchanged. *)
Theorem drop_on_own_container
  (st : State) (a o : Target) (l : list TierImage) :
  data_type a = Some IMAGE ->
  id o = UNRANKED_ID \/ JS.some (row_is (id o)) (rows st) = true ->
  findContainer (rows st) (items st) (id a) = Some (id o) ->
  JS.get (items st) (id o) = Some l ->
  JS.some (image_is (id o)) l = false ->
  handleDragEnd (mkEvent a (Some o)) st
  = Done (mkState (rows st) (items st) None).
Proof.
  intros Ha Hcont Hac Hl Hnone.
  rewrite (handleDragEnd_same_container st a o (id o) Ha Hac
             (findContainer_container _ _ _ Hcont)).
  unfold moveWithin. destruct (truthy_id (Some (id o))); [|reflexivity].
  cbn [andb]. rewrite Hl, (findIndex_absent _ _ Hnone).
  cbn. rewrite andb_false_r. reflexivity.
Qed.

Lemma drop_on_own_container_witness :
  handleDragEnd
    (mkEvent (mkTarget "b" (Some IMAGE)) (Some (mkTarget "S" (Some ROW))))
    (mkState defaultRows
       (JS.set defaultItems "S" [mkImage "a" "1"; mkImage "b" "2"]) (Some "b"))
  = Done (mkState defaultRows
            (JS.set defaultItems "S" [mkImage "a" "1"; mkImage "b" "2"]) None).
Proof.
  apply (drop_on_own_container
           (mkState defaultRows
              (JS.set defaultItems "S" [mkImage "a" "1"; mkImage "b" "2"])
              (Some "b"))
           (mkTarget "b" (Some IMAGE)) (mkTarget "S" (Some ROW))
           [mkImage "a" "1"; mkImage "b" "2"]);
    try reflexivity.
  right. reflexivity.
Defined.

(** ** Deleting a tier *)

Lemma set_same_value {V : Type} (o : JS.object V) k v :
  JS.get o k = Some v -> JS.set o k v = o.
Proof.
  induction o as [|[k' v'] t IH]; simpl; intros H.
  - discriminate.
  - destruct (String.eqb_spec k' k).
    + injection H as ->. reflexivity.
    + now rewrite IH.
Qed.

Lemma filter_none {A : Type} (p : A -> bool) (l : list A) :
  existsb p l = false -> filter (fun x => negb (p x)) l = l.
Proof.
  induction l as [|a t IH]; simpl; intros H.
  - reflexivity.
  - apply orb_false_iff in H as [-> Ht]. simpl. now rewrite IH.
Qed.

Lemma itemsOrEmpty_own items id l :
  JS.get items id = Some l -> itemsOrEmpty items id = Some l.
Proof. unfold itemsOrEmpty, JS.read. now intros ->. Qed.

Lemma itemsOrEmpty_absent items id :
  JS.get items id = None -> JS.inherited id = false ->
  itemsOrEmpty items id = Some [].
Proof. unfold itemsOrEmpty, JS.read. now intros -> ->. Qed.

Lemma itemsOrEmpty_inherited items id :
  JS.get items id = None -> JS.inherited id = true ->
  itemsOrEmpty items id = None.
Proof. unfold itemsOrEmpty, JS.read. now intros -> ->. Qed.

(** C2, as the code has it. With the [UNRANKED_ID] container present,
    deleting an id that is neither [UNRANKED_ID], nor the id of a row, nor
    a key of the store, nor the name of a property objects inherit from
    [Object.prototype], changes nothing. *)
Theorem delete_unknown_is_noop (st : State) (id : string) (u : list TierImage) :
  id <> UNRANKED_ID ->
  JS.some (row_is id) (rows st) = false ->
  JS.get (items st) id = None ->
  JS.inherited id = false ->
  JS.get (items st) UNRANKED_ID = Some u ->
  handleDeleteRow id st = Done st.
Proof.
  intros Hne Hrows Hid Hproto Hu. unfold handleDeleteRow.
  rewrite (itemsOrEmpty_absent _ _ Hid Hproto).
  rewrite Hu, app_nil_r, (set_same_value _ _ _ Hu).
  rewrite delete_absent by assumption.
  unfold JS.some in Hrows. rewrite (filter_none _ _ Hrows).
  now destruct st.
Qed.

Lemma delete_unknown_is_noop_witness :
  handleDeleteRow "Z" DEFAULT_STATE = Done DEFAULT_STATE.
Proof.
  apply (delete_unknown_is_noop DEFAULT_STATE "Z" []);
    try reflexivity; discriminate.
Defined.

(** C2 fails for the reserved id: [handleDeleteRow] has no guard, so
    the [UNRANKED_ID] container is removed with the items it holds.  It
    fails as well for an id that is a key of the store without being a row
    (the items of that container move to [UNRANKED_ID]), and for an id
    that no row and no key carries but [Object.prototype] defines: the
    spread of the inherited value throws. *)
Lemma delete_unranked_counterexample :
  let st := mkState defaultRows
              (JS.set defaultItems UNRANKED_ID [mkImage "x" "1"]) None in
  handleDeleteRow UNRANKED_ID st
  = Done (mkState defaultRows
            [("S", []); ("A", []); ("B", []); ("C", []); ("D", [])] None)
  /\ handleDeleteRow UNRANKED_ID st <> Done st
  /\ JS.some (row_is UNRANKED_ID) (rows st) = false
  /\ handleDeleteRow "constructor" st = TypeError
  /\ JS.some (row_is "constructor") (rows st) = false.
Proof.
  cbv zeta. repeat split. discriminate.
Qed.

(** C6. Deleting the tier [T] whose container holds [t] while
    [UNRANKED_ID] holds [u]: [UNRANKED_ID] then holds [u ++ t], [T] is
    neither a row nor a key of the store, the other rows keep their
    order and the other containers their content. *)
Theorem delete_tier_migrates
  (st : State) (T : string) (t u : list TierImage) :
  T <> UNRANKED_ID ->
  JS.get (items st) T = Some t ->
  JS.get (items st) UNRANKED_ID = Some u ->
  exists st',
    handleDeleteRow T st = Done st'
    /\ JS.get (items st') UNRANKED_ID = Some (u ++ t)
    /\ JS.get (items st') T = None
    /\ ~ In T (JS.keys (items st'))
    /\ ~ In T (map row_id (rows st'))
    /\ rows st' = filter (fun row => negb (String.eqb (row_id row) T)) (rows st)
    /\ (forall k, k <> T -> k <> UNRANKED_ID ->
                  JS.get (items st') k = JS.get (items st) k).
Proof.
  intros Hne Ht Hu. unfold handleDeleteRow.
  rewrite (itemsOrEmpty_own _ _ _ Ht), Hu.
  eexists. split; [reflexivity|]. cbn [items rows].
  split; [rewrite get_delete_other by assumption; apply get_set_same|].
  split; [apply get_delete_same|].
  split; [apply get_none_keys, get_delete_same|].
  split.
  - rewrite in_map_iff. intros (row & Hrow & Hin).
    apply filter_In in Hin as [_ Hin]. unfold row_is in Hin.
    rewrite Hrow, String.eqb_refl in Hin. discriminate.
  - split; [reflexivity|].
    intros k Hk1 Hk2.
    rewrite get_delete_other by congruence. now rewrite get_set_other by congruence.
Qed.

Lemma delete_tier_migrates_witness :
  exists st',
    handleDeleteRow "S"
      (mkState defaultRows
         (JS.set (JS.set defaultItems "S"
                    [mkImage "a" "1"; mkImage "b" "2"; mkImage "c" "3"])
                 UNRANKED_ID [mkImage "x" "4"; mkImage "y" "5"]) None)
    = Done st'
    /\ JS.get (items st') UNRANKED_ID
       = Some [mkImage "x" "4"; mkImage "y" "5";
               mkImage "a" "1"; mkImage "b" "2"; mkImage "c" "3"]
    /\ JS.get (items st') "S" = None.
Proof.
  destruct (delete_tier_migrates
              (mkState defaultRows
                 (JS.set (JS.set defaultItems "S"
                            [mkImage "a" "1"; mkImage "b" "2"; mkImage "c" "3"])
                         UNRANKED_ID [mkImage "x" "4"; mkImage "y" "5"]) None)
              "S" [mkImage "a" "1"; mkImage "b" "2"; mkImage "c" "3"]
              [mkImage "x" "4"; mkImage "y" "5"])
    as (st' & H1 & H2 & H3 & _); try reflexivity; try discriminate.
  exists st'. repeat split; assumption.
Defined.

(** The worked case of C6, evaluated. *)
Example delete_tier_example :
  handleDeleteRow "S"
    (mkState defaultRows
       (JS.set (JS.set defaultItems "S"
                  [mkImage "a" "1"; mkImage "b" "2"; mkImage "c" "3"])
               UNRANKED_ID [mkImage "x" "4"; mkImage "y" "5"]) None)
  = Done (mkState
            [ mkRow "A" "A" "#ffbf7f"; mkRow "B" "B" "#ffff7f";
              mkRow "C" "C" "#7fff7f"; mkRow "D" "D" "#7fbfff" ]
            [("A", []); ("B", []); ("C", []); ("D", []);
             ("unranked", [mkImage "x" "4"; mkImage "y" "5";
                           mkImage "a" "1"; mkImage "b" "2"; mkImage "c" "3"])]
            None).
Proof. reflexivity. Qed.

(** ** Snapshots *)

(** C4, as the code has it. [handleUpload] reports a malformed snapshot
    exactly when the document cannot be parsed, is falsy, or one of
    [savedRows], [savedItems] is missing or falsy; it then leaves the
    state as it is.  In particular a missing field is a failure. *)
Theorem upload_rejects_missing_or_falsy (parsed : option JSValue) (cur : Atoms) :
  (snd (handleUpload parsed cur) = LoadFailed <->
   match parsed with
   | None => True
   | Some data =>
       truthy data = false
       \/ missing_or_falsy data "savedRows" = true
       \/ missing_or_falsy data "savedItems" = true
   end)
  /\ (snd (handleUpload parsed cur) = LoadFailed ->
      fst (handleUpload parsed cur) = cur)
  /\ (forall data,
        parsed = Some data ->
        prop data "savedRows" = None \/ prop data "savedItems" = None ->
        handleUpload parsed cur = (cur, LoadFailed)).
Proof.
  split; [|split].
  - unfold handleUpload, accepted, missing_or_falsy.
    destruct parsed as [data|]; cbn [fst snd]; [|tauto].
    destruct (truthy data);
      destruct (prop data "savedRows") as [r|];
      destruct (prop data "savedItems") as [i|];
      try destruct (truthy r); try destruct (truthy i);
      cbn [negb andb fst snd]; split; auto;
      try discriminate; intros [H | [H | H]]; discriminate.
  - unfold handleUpload.
    destruct parsed as [data|]; [|reflexivity].
    destruct (accepted data) as [[r i]|]; [discriminate | reflexivity].
  - intros data -> H. unfold handleUpload, accepted.
    destruct (truthy data); [|reflexivity].
    destruct H as [-> | ->]; [reflexivity|].
    destruct (prop data "savedRows"); reflexivity.
Qed.

(** C4 fails for a field of the wrong shape: a number for [savedRows]
    and a string for [savedItems] are truthy, so the document is accepted
    and both values replace the state. *)
Lemma wrong_shape_accepted :
  let data := JObject [("savedRows", JNumber 7); ("savedItems", JString "x")] in
  as_rows (JNumber 7) = None
  /\ as_items (JString "x") = None
  /\ handleUpload (Some data) (atoms_of DEFAULT_STATE)
     = (mkAtoms (JNumber 7) (JString "x"), BackupLoaded)
  /\ snd (handleUpload (Some data) (atoms_of DEFAULT_STATE))
     <> LoadFailed
  /\ fst (handleUpload (Some data) (atoms_of DEFAULT_STATE))
     <> atoms_of DEFAULT_STATE.
Proof.
  cbv zeta. repeat split; discriminate.
Qed.

Lemma all_some_map {A B : Type} (f : A -> option B) (g : B -> A) (l : list B) :
  (forall y, f (g y) = Some y) -> all_some f (map g l) = Some l.
Proof.
  intros H. induction l as [|y t IH]; simpl.
  - reflexivity.
  - now rewrite H, IH.
Qed.

Lemma as_row_js_of_row row : as_row (js_of_row row) = Some row.
Proof. now destruct row. Qed.

Lemma as_image_js_of_image item : as_image (js_of_image item) = Some item.
Proof. now destruct item. Qed.

Lemma as_rows_js_of_rows rows : as_rows (js_of_rows rows) = Some rows.
Proof. apply all_some_map, as_row_js_of_row. Qed.

Lemma as_items_js_of_items items : as_items (js_of_items items) = Some items.
Proof.
  unfold as_items, js_of_items.
  induction items as [|[k l] t IH]; simpl.
  - reflexivity.
  - rewrite (all_some_map as_image js_of_image l as_image_js_of_image).
    simpl. now rewrite IH.
Qed.

(** C9. What [handleSave] writes is accepted by both load paths, which
    install the very values that were saved; read at their types these
    are the rows and the items that were encoded. *)
Theorem decode_encode_roundtrip
  (r : list TierRowData) (i : JS.object (list TierImage))
  (cur : Atoms) (a : option string) :
  decode (encode r i) = Some (r, i)
  /\ handleUpload (Some (encode r i)) cur
     = (atoms_of (mkState r i a), BackupLoaded)
  /\ loadSaved (Some (Some (encode r i))) cur = atoms_of (mkState r i a)
  /\ typed (atoms_of (mkState r i a)) a = Some (mkState r i a).
Proof.
  assert (Hacc : accepted (encode r i) = Some (js_of_rows r, js_of_items i))
    by reflexivity.
  split; [|split; [|split]].
  - unfold decode. now rewrite Hacc, as_rows_js_of_rows, as_items_js_of_items.
  - unfold handleUpload. now rewrite Hacc.
  - reflexivity.
  - unfold typed, atoms_of. cbn [rowsValue itemsValue rows items].
    now rewrite as_rows_js_of_rows, as_items_js_of_items.
Qed.

(** C3 at two snapshots.  Without the [UNRANKED_ID] key the rendering
    shows an empty bank, and both importing images and deleting a tier
    throw.  Without the key of a row the rendering shows an empty row and
    deleting the row works, and dropping an item on the row throws. *)
Theorem missing_container_key_throws :
  (exists st shown,
     typed (fst (handleUpload (Some snapshot_without_unranked)
                   (atoms_of DEFAULT_STATE))) None = Some st
     /\ render st = Done shown /\ snd shown = []
     /\ handleImageUpload [mkImage "i2" "data:2"] st = TypeError
     /\ handleDeleteRow "S" st = TypeError)
  /\ (exists st st' shown,
        typed (fst (handleUpload (Some snapshot_without_row_key)
                      (atoms_of DEFAULT_STATE))) None = Some st
        /\ render st = Done shown
        /\ map snd (fst shown) = [[mkImage "i1" "data:1"]; []]
        /\ handleDeleteRow "A" st = Done st'
        /\ handleDragEnd
             (mkEvent (mkTarget "i1" (Some IMAGE))
                      (Some (mkTarget "A" (Some ROW)))) st
           = TypeError).
Proof.
  split.
  - eexists _, _. repeat split.
  - eexists _, _, _. repeat split.
Qed.

(** ** The partition invariant *)

Lemma consistent_default : consistent DEFAULT_STATE.
Proof.
  repeat split.
  - unfold JS.wf_object. cbn.
    repeat (constructor; [cbn; intuition discriminate|]). constructor.
  - intros H. vm_compute in H. discriminate.
  - cbn. repeat (constructor; [repeat split; discriminate|]). constructor.
  - intros k l.
    change (items DEFAULT_STATE)
      with ([("S", []); ("A", []); ("B", []); ("C", []); ("D", []);
             ("unranked", [])] : JS.object (list TierImage)).
    cbn -[String.eqb].
    repeat (match goal with
            | |- context [String.eqb ?x k] => destruct (String.eqb x k)
            end;
            [intros H; injection H as <-; constructor|]).
    discriminate.
Qed.

Lemma get_set_preserved {V : Type} (o : JS.object V) k v k' :
  JS.get o k' <> None -> JS.get (JS.set o k v) k' <> None.
Proof.
  intros H. destruct (String.eqb_spec k k') as [<- | Hne].
  - rewrite get_set_same. discriminate.
  - now rewrite get_set_other.
Qed.

Lemma consistent_set st k v a :
  consistent st -> JS.get (items st) k <> None -> uuid_items v ->
  consistent (mkState (rows st) (JS.set (items st) k v) a).
Proof.
  intros (Hwf & Hu & Hrows & Hitems) Hk Hv. repeat split; cbn [items rows].
  - now apply wf_set.
  - now apply get_set_preserved.
  - eapply Forall_impl; [|exact Hrows]. cbv beta.
    intros x (H1 & H2 & H3). repeat split; auto. now apply get_set_preserved.
  - intros k' l. destruct (String.eqb_spec k k') as [<- | Hne].
    + rewrite get_set_same. now intros [= <-].
    + rewrite get_set_other by assumption. apply Hitems.
Qed.

Lemma consistent_rows st rows' a :
  consistent st ->
  incl (map row_id rows') (map row_id (rows st)) ->
  consistent (mkState rows' (items st) a).
Proof.
  intros (Hwf & Hu & Hrows & Hitems) Hincl. repeat split; cbn [items rows]; auto.
  rewrite Forall_forall in *. intros x Hx. apply Hrows. now apply Hincl.
Qed.

Lemma consistent_move st l1 m l2 c oc d d' a :
  consistent st ->
  JS.get (items st) c = Some (l1 ++ m :: l2) ->
  JS.get (items st) oc = Some d ->
  Permutation d' (m :: d) ->
  consistent
    (mkState (rows st) (JS.set (JS.set (items st) c (l1 ++ l2)) oc d') a).
Proof.
  intros Hc Hsrc Hdst HP.
  assert (Hl : uuid_items (l1 ++ m :: l2))
    by (destruct Hc as (_ & _ & _ & Hitems); eapply Hitems; eauto).
  assert (Hd : uuid_items d)
    by (destruct Hc as (_ & _ & _ & Hitems); eapply Hitems; eauto).
  unfold uuid_items in *.
  apply Forall_app in Hl as [Hl1 Hl2]. inversion Hl2 as [|? ? Hm Hl2']; subst.
  apply (consistent_set
           (mkState (rows st) (JS.set (items st) c (l1 ++ l2)) a) oc d' a).
  - apply consistent_set; [assumption | congruence |].
    apply Forall_app; auto.
  - cbn [items]. apply get_set_preserved. congruence.
  - unfold uuid_items. eapply Permutation_Forall; [symmetry; exact HP|].
    now constructor.
Qed.

Lemma uuid_not_container st x :
  consistent st -> is_uuid x = true ->
  String.eqb x UNRANKED_ID || JS.some (row_is x) (rows st) = false.
Proof.
  intros (_ & _ & Hrows & _) Hx. apply orb_false_iff. split.
  - apply String.eqb_neq. intros ->. discriminate.
  - destruct (JS.some (row_is x) (rows st)) eqn:E; [|reflexivity].
    apply existsb_exists in E as (row & Hin & Hrow).
    apply String.eqb_eq in Hrow.
    rewrite Forall_forall in Hrows.
    destruct (Hrows x) as (_ & _ & Hno); [|congruence].
    rewrite <- Hrow. now apply in_map.
Qed.

Lemma held_item_uuid st x c l :
  consistent st -> JS.get (items st) c = Some l ->
  JS.some (image_is x) l = true -> is_uuid x = true.
Proof.
  intros (_ & _ & _ & Hitems) Hc Hx.
  apply existsb_exists in Hx as (item & Hin & Hitem).
  apply String.eqb_eq in Hitem. subst x.
  specialize (Hitems c l Hc). unfold uuid_items in Hitems.
  rewrite Forall_forall in Hitems. now apply Hitems.
Qed.

Lemma findContainer_key st x k :
  consistent st -> findContainer (rows st) (items st) x = Some k ->
  JS.get (items st) k <> None.
Proof.
  intros (_ & Hu & Hrows & _). unfold findContainer.
  destruct (String.eqb_spec x UNRANKED_ID) as [-> | Hne]; cbn [orb].
  - now intros [= <-].
  - destruct (JS.some (row_is x) (rows st)) eqn:E.
    + intros [= <-].
      apply existsb_exists in E as (row & Hin & Hrow).
      apply String.eqb_eq in Hrow.
      rewrite Forall_forall in Hrows.
      apply (Hrows x). rewrite <- Hrow. now apply in_map.
    + intros H. apply scanContainers_some in H as (l & -> & _). discriminate.
Qed.

Lemma arrayMove_some {A : Type} (l : list A) n x j :
  nth_error l n = Some x -> exists l', JS.arrayMove l (Z.of_nat n) j = Some l'.
Proof.
  intros H. destruct (nth_error_split l n H) as (l1 & l2 & -> & <-).
  unfold JS.arrayMove. rewrite splice_delete_at. eauto.
Qed.

Lemma moveWithin_ok items c a o l :
  JS.get items c = Some l ->
  exists items',
    moveWithin (Some c) a o items = Done items'
    /\ (items' = items
        \/ exists l', items' = JS.set items c l' /\ Permutation l' l).
Proof.
  intros Hl. unfold moveWithin.
  destruct (truthy_id (Some c) && truthy_id (Some o)); [|eauto].
  rewrite Hl.
  destruct (Z.eqb_spec (JS.findIndex (image_is a) l) (-1)) as [E|E];
    cbn [negb andb]; [eauto|].
  destruct (negb (JS.findIndex (image_is o) l =? -1)%Z
            && negb (JS.findIndex (image_is a) l =? JS.findIndex (image_is o) l)%Z);
    [|eauto].
  destruct (findIndex_found _ _ E) as (n & Hn & ->).
  destruct (first_index_nth _ _ _ Hn) as (x & Hx & _).
  destruct (arrayMove_some l n x (JS.findIndex (image_is o) l) Hx) as (l' & Hl').
  rewrite Hl'. eexists. split; [reflexivity|]. right.
  exists l'. split; [reflexivity|]. eapply arrayMove_perm; eauto.
Qed.

Lemma moveAcross_ok rows items c oc a o l d :
  c <> oc ->
  JS.get items c = Some l -> JS.some (image_is a) l = true ->
  JS.get items oc = Some d ->
  findContainer rows items o = Some oc ->
  exists l1 m l2 d',
    l = l1 ++ m :: l2 /\ Permutation d' (m :: d)
    /\ moveAcross rows c oc a o items
       = Done (JS.set (JS.set items c (l1 ++ l2)) oc d').
Proof.
  intros Hne Hl Ha Hd Hoc.
  destruct (first_index_some _ _ Ha) as (n & Hn).
  destruct (first_index_split _ _ _ Hn) as (l1 & m & l2 & -> & _ & Hm & Hl1).
  exists l1, m, l2. eexists. split; [reflexivity|]. split.
  2: { apply (moveAcross_done rows c oc a o items l1 m l2 d); auto.
       apply some_without_middle. }
  destruct (String.eqb oc o).
  - symmetry. apply Permutation_cons_append.
  - destruct (negb (JS.findIndex (image_is o) d =? -1)%Z).
    + apply splice_insert_perm.
    + symmetry. apply Permutation_cons_append.
Qed.

Lemma all_items_move items c oc l1 m l2 d d' :
  c <> oc ->
  JS.get items c = Some (l1 ++ m :: l2) ->
  JS.get items oc = Some d ->
  Permutation d' (m :: d) ->
  Permutation (all_items (JS.set (JS.set items c (l1 ++ l2)) oc d'))
              (all_items items).
Proof.
  intros Hne Hsrc Hdst HP.
  destruct (all_items_set items c _ Hsrc) as (rest1 & H1 & H2).
  assert (Hdst' : JS.get (JS.set items c (l1 ++ l2)) oc = Some d)
    by now rewrite get_set_other.
  destruct (all_items_set _ oc d Hdst') as (rest2 & H3 & H4).
  rewrite H4, HP, H1. cbn [app].
  rewrite <- H3, H2.
  rewrite <- !app_assoc. cbn [app]. apply Permutation_middle.
Qed.

Lemma consistent_activeId st a :
  consistent st -> consistent (with_activeId st a).
Proof.
  intros H. unfold with_activeId. apply consistent_rows; [assumption|].
  apply incl_refl.
Qed.

(** [handleDragEnd] on a registered draggable returns, and keeps the
    invariant and the items. *)
Lemma handleDragEnd_ok st event :
  consistent st -> draggable st (active event) = true ->
  exists st',
    handleDragEnd event st = Done st'
    /\ consistent st'
    /\ Permutation (all_items (items st')) (all_items (items st)).
Proof.
  intros Hc Hdrag. destruct event as [a [o|]]; cbn [active] in Hdrag.
  2: { exists (with_activeId st None).
       split; [reflexivity | split; [now apply consistent_activeId|reflexivity]]. }
  assert (Hidle : exists st',
             Done (with_activeId st None) = Done st'
             /\ consistent st'
             /\ Permutation (all_items (items st')) (all_items (items st))).
  { exists (with_activeId st None).
    split; [reflexivity | split; [now apply consistent_activeId|reflexivity]]. }
  assert (Hwithin : forall c l ac oid,
             JS.get (items st) c = Some l ->
             exists st',
               (items' <- moveWithin (Some c) ac oid (items st) ;;
                Done (mkState (rows st) items' None)) = Done st'
               /\ consistent st'
               /\ Permutation (all_items (items st')) (all_items (items st))).
  { intros c l ac oid Hl.
    destruct (moveWithin_ok (items st) c ac oid l Hl)
      as (items' & -> & [-> | (l' & -> & HP)]).
    - exists (mkState (rows st) (items st) None).
      split; [reflexivity | split; [|reflexivity]].
      apply (consistent_activeId st None Hc).
    - eexists. split; [reflexivity|]. split.
      + apply consistent_set; [assumption | congruence |].
        destruct Hc as (_ & _ & _ & Hitems). unfold uuid_items.
        eapply Permutation_Forall; [symmetry; exact HP|].
        now apply (Hitems c l).
      + cbn [items]. now apply (all_items_set_perm _ c l l'). }
  unfold draggable in Hdrag.
  destruct (data_type a) as [[|]|] eqn:Ha; [| |discriminate].
  - (* a tier *)
    unfold handleDragEnd. cbn [over active]. rewrite Ha. cbn [is_type].
    destruct (is_type ROW (data_type o)); cbn [andb]; [|exact Hidle].
    destruct (negb (String.eqb (id a) (id o))); [|exact Hidle].
    destruct (first_index_some _ _ Hdrag) as (n & Hn).
    destruct (first_index_nth _ _ _ Hn) as (x & Hx & _).
    unfold reorderRows. rewrite (findIndex_nat _ _ _ Hn).
    destruct (arrayMove_some (rows st) n x
                (JS.findIndex (row_is (id o)) (rows st)) Hx) as (rows' & Hrows').
    rewrite Hrows'. eexists. split; [reflexivity|]. split; [|reflexivity].
    apply consistent_rows; [assumption|].
    apply arrayMove_perm in Hrows'.
    intros y Hy. eapply Permutation_in; [|exact Hy].
    now apply Permutation_map.
  - (* an item *)
    unfold holds_item in Hdrag.
    destruct (scanContainers (items st) (id a)) as [c|] eqn:Hscan;
      [|discriminate].
    destruct (scanContainers_some _ _ _ Hscan) as (l & Hl & Hin).
    assert (Hac : findContainer (rows st) (items st) (id a) = Some c).
    { unfold findContainer.
      now rewrite (uuid_not_container st (id a) Hc
                     (held_item_uuid st (id a) c l Hc Hl Hin)). }
    unfold handleDragEnd. cbn [over active].
    destruct (image_not_row a Ha) as [-> ->]. cbn [andb]. rewrite Hac.
    destruct (findContainer (rows st) (items st) (id o)) as [oc|] eqn:Hoc;
      [|now apply (Hwithin c l)].
    destruct (negb (truthy_id (Some c)) || negb (truthy_id (Some oc))
              || String.eqb c oc) eqn:Hcond;
      [now apply (Hwithin c l)|].
    apply orb_false_iff in Hcond as [_ Hne]. apply String.eqb_neq in Hne.
    destruct (JS.get (items st) oc) as [d|] eqn:Hd;
      [|now apply (findContainer_key st (id o) oc Hc) in Hoc].
    destruct (moveAcross_ok (rows st) (items st) c oc (id a) (id o) l d
                Hne Hl Hin Hd Hoc) as (l1 & m & l2 & d' & -> & HP & ->).
    eexists. split; [reflexivity|]. split.
    + now apply (consistent_move st l1 m l2 c oc d d').
    + cbn [items]. now apply (all_items_move _ c oc l1 m l2 d d').
Qed.

Lemma handleAddRow_consistent st uuid :
  consistent st -> is_uuid uuid = true ->
  JS.get (items st) (String.append "new-row-" uuid) = None ->
  consistent (handleAddRow uuid st).
Proof.
  intros (Hwf & Hu & Hrows & Hitems) Huuid Hfresh.
  unfold handleAddRow. split; [|split; [|split]]; cbn [items rows].
  - now apply wf_set.
  - now apply get_set_preserved.
  - rewrite map_app. apply Forall_app. split.
    + eapply Forall_impl; [|exact Hrows]. cbv beta.
      intros x (H1 & H2 & H3). repeat split; auto.
      now apply get_set_preserved.
    + constructor; [|constructor]. cbn [map row_id]. repeat split.
      * rewrite get_set_same. discriminate.
      * intros E. rewrite E in Hfresh. contradiction.
      * unfold is_uuid in *. apply Nat.eqb_eq in Huuid.
        cbn [String.length String.append]. now rewrite Huuid.
  - intros k l.
    destruct (String.eqb_spec (String.append "new-row-" uuid) k) as [<- | Hne].
    + rewrite get_set_same. intros [= <-]. constructor.
    + rewrite get_set_other by assumption. apply Hitems.
Qed.

Lemma handleUpdateRow_consistent st id newLabel newColor :
  consistent st -> consistent (handleUpdateRow id newLabel newColor st).
Proof.
  intros Hc. unfold handleUpdateRow, with_rows.
  apply consistent_rows; [assumption|].
  rewrite map_map.
  erewrite map_ext; [apply incl_refl|].
  intros row. cbv beta. now destruct (row_is id row).
Qed.

Lemma handleDeleteRow_ok st id :
  consistent st -> JS.some (row_is id) (rows st) = true ->
  exists st',
    handleDeleteRow id st = Done st'
    /\ consistent st'
    /\ Permutation (all_items (items st')) (all_items (items st)).
Proof.
  intros Hc Hrow.
  destruct Hc as (Hwf & Hu & Hrows & Hitems).
  apply existsb_exists in Hrow as (row & Hin & Hrow).
  apply String.eqb_eq in Hrow.
  rewrite Forall_forall in Hrows.
  destruct (Hrows id) as (Hid & Hne & _); [rewrite <- Hrow; now apply in_map|].
  destruct (JS.get (items st) id) as [t|] eqn:Ht; [|contradiction].
  destruct (JS.get (items st) UNRANKED_ID) as [u|] eqn:Hu'; [|contradiction].
  unfold handleDeleteRow. rewrite (itemsOrEmpty_own _ _ _ Ht), Hu'.
  eexists. split; [reflexivity|]. split.
  - split; [|split; [|split]]; cbn [items rows].
    + now apply wf_delete, wf_set.
    + rewrite get_delete_other by assumption. rewrite get_set_same. discriminate.
    + rewrite Forall_forall. intros x Hx.
      apply in_map_iff in Hx as (r & <- & Hr).
      apply filter_In in Hr as [Hr Hkeep].
      destruct (Hrows (row_id r) (in_map row_id _ _ Hr)) as (H1 & H2 & H3).
      repeat split; auto.
      unfold row_is in Hkeep. apply negb_true_iff, String.eqb_neq in Hkeep.
      rewrite get_delete_other by congruence. now apply get_set_preserved.
    + intros k l. destruct (String.eqb_spec id k) as [<- | Hk].
      * now rewrite get_delete_same.
      * rewrite get_delete_other by assumption.
        destruct (String.eqb_spec UNRANKED_ID k) as [<- | Hk'].
        -- rewrite get_set_same. intros [= <-].
           apply Forall_app. split; [now apply (Hitems UNRANKED_ID) | now apply (Hitems id)].
        -- rewrite get_set_other by assumption. apply Hitems.
  - cbn [items].
    destruct (all_items_set (items st) UNRANKED_ID u Hu') as (rest & H1 & H2).
    assert (Ht' : JS.get (JS.set (items st) UNRANKED_ID (u ++ t)) id = Some t)
      by (rewrite get_set_other by congruence; assumption).
    pose proof (all_items_delete _ id t
                  (wf_set (items st) UNRANKED_ID (u ++ t) Hwf) Ht') as H3.
    rewrite H2 in H3. rewrite H1.
    apply (Permutation_app_inv_l t). rewrite <- H3.
    rewrite !app_assoc. apply Permutation_app_tail. apply Permutation_app_comm.
Qed.

Lemma handleImageUpload_ok st newImages :
  consistent st ->
  forallb (fun item => is_uuid (image_id item)) newImages = true ->
  exists st',
    handleImageUpload newImages st = Done st'
    /\ consistent st'
    /\ Permutation (all_items (items st')) (all_items (items st) ++ newImages).
Proof.
  intros Hc Hnew. pose proof Hc as (Hwf & Hu & Hrows & Hitems).
  unfold handleImageUpload.
  destruct (JS.get (items st) UNRANKED_ID) as [u|] eqn:Hu'; [|contradiction].
  eexists. split; [reflexivity|]. split.
  - unfold with_items. apply consistent_set; [assumption | congruence |].
    apply Forall_app. split; [now apply (Hitems UNRANKED_ID)|].
    apply Forall_forall. now apply forallb_forall.
  - cbn [items with_items].
    destruct (all_items_set (items st) UNRANKED_ID u Hu') as (rest & H1 & H2).
    rewrite H2, H1. rewrite <- !app_assoc. apply Permutation_app_head.
    apply Permutation_app_comm.
Qed.

(** Every offered mutation returns, keeps the invariant, and adds to the
    store exactly the items it imports. *)
Lemma perform_ok st a :
  consistent st -> offered st a = true ->
  exists st',
    perform a st = Done st'
    /\ consistent st'
    /\ Permutation (all_items (items st'))
                   (all_items (items st) ++ imported [a]).
Proof.
  intros Hc Hoff. destruct a; cbn [perform imported offered] in *;
    rewrite ?app_nil_r.
  - apply andb_true_iff in Hoff as [Huuid Hfresh].
    destruct (JS.get (items st) (String.append "new-row-" uuid)) eqn:E;
      [discriminate|].
    eexists. split; [reflexivity|]. split.
    + now apply handleAddRow_consistent.
    + unfold handleAddRow. cbn [items]. now rewrite all_items_set_fresh.
  - eexists. split; [reflexivity|]. split; [|reflexivity].
    now apply handleUpdateRow_consistent.
  - now apply handleDeleteRow_ok.
  - now apply handleImageUpload_ok.
  - eexists. split; [reflexivity|]. split; [|reflexivity].
    now apply consistent_activeId.
  - now apply handleDragEnd_ok.
Qed.

Lemma imported_cons a acts : imported (a :: acts) = imported [a] ++ imported acts.
Proof. destruct a; cbn [imported app]; now rewrite ?app_nil_r. Qed.

Lemma run_ok acts :
  forall st,
    consistent st -> supported acts st = true ->
    exists st',
      run acts st = Done st'
      /\ consistent st'
      /\ Permutation (all_items (items st'))
                     (all_items (items st) ++ imported acts).
Proof.
  induction acts as [|a acts IH]; intros st Hc Hsup.
  - exists st. cbn [run imported]. rewrite app_nil_r. auto.
  - cbn [supported] in Hsup. apply andb_true_iff in Hsup as [Hoff Hrest].
    destruct (perform_ok st a Hc Hoff) as (st1 & Hp & Hc1 & HP1).
    rewrite Hp in Hrest.
    destruct (IH st1 Hc1 Hrest) as (st' & Hr & Hc' & HP').
    exists st'. cbn [run]. rewrite Hp. split; [assumption|]. split; [assumption|].
    rewrite (imported_cons a acts), HP', HP1, <- app_assoc. reflexivity.
Qed.

(** C1. Every sequence of mutations the user interface offers, run from
    the initial state, returns a state whose containers hold, taken
    together, exactly the items that were imported, each as many times
    as it was imported; when the imported items are pairwise distinct no
    item sits at two places. *)
Theorem partition_is_exhaustive (acts : list Action) :
  supported acts DEFAULT_STATE = true ->
  exists st,
    run acts DEFAULT_STATE = Done st
    /\ Permutation (all_items (items st)) (imported acts)
    /\ (NoDup (imported acts) -> NoDup (all_items (items st))).
Proof.
  intros Hsup.
  destruct (run_ok acts DEFAULT_STATE consistent_default Hsup)
    as (st & Hr & _ & HP).
  exists st. split; [assumption|]. split; [exact HP|].
  intros Hnd. eapply Permutation_NoDup; [symmetry; exact HP | exact Hnd].
Qed.

Lemma partition_is_exhaustive_witness :
  exists st,
    run sample_run DEFAULT_STATE = Done st
    /\ Permutation (all_items (items st)) (imported sample_run)
    /\ (NoDup (imported sample_run) -> NoDup (all_items (items st))).
Proof.
  apply (partition_is_exhaustive sample_run). vm_compute. reflexivity.
Defined.

(** The sample run, evaluated: both items end in the bank. *)
Example sample_run_result :
  match run sample_run DEFAULT_STATE with
  | Done st =>
      map row_id (rows st)
      = ["A"; "B"; "C"; "D"; String.append "new-row-" (sample_uuid "3")]
      /\ JS.get (items st) UNRANKED_ID
         = Some [mkImage (sample_uuid "2") "data:2";
                 mkImage (sample_uuid "1") "data:1"]
      /\ JS.get (items st) "S" = None
  | _ => False
  end.
Proof. vm_compute. repeat split. Qed.

(** * Further properties of the handlers *)

(** ** What a drag can and cannot do *)

Lemma all_items_transfer items c oc l l' m d d' :
  c <> oc ->
  JS.get items c = Some l -> Permutation l (m :: l') ->
  JS.get items oc = Some d -> Permutation d' (m :: d) ->
  Permutation (all_items (JS.set (JS.set items c l') oc d'))
              (all_items items).
Proof.
  intros Hne Hsrc Hl Hdst HP.
  destruct (all_items_set items c _ Hsrc) as (rest1 & H1 & H2).
  assert (Hdst' : JS.get (JS.set items c l') oc = Some d)
    by now rewrite get_set_other.
  destruct (all_items_set _ oc d Hdst') as (rest2 & H3 & H4).
  rewrite H4, HP, H1, Hl. cbn [app]. now rewrite <- H3, H2.
Qed.

Lemma moveWithin_conserves ac a o items items' :
  moveWithin ac a o items = Done items' ->
  JS.keys items' = JS.keys items
  /\ Permutation (all_items items') (all_items items).
Proof.
  unfold moveWithin. destruct ac as [c|]; [|now intros [= <-]].
  destruct (truthy_id (Some c) && truthy_id (Some o)); [|now intros [= <-]].
  destruct (JS.get items c) as [l|] eqn:Hl; [|discriminate].
  destruct (negb (JS.findIndex (image_is a) l =? -1)%Z
            && negb (JS.findIndex (image_is o) l =? -1)%Z
            && negb (JS.findIndex (image_is a) l
                     =? JS.findIndex (image_is o) l)%Z);
    [|now intros [= <-]].
  destruct (JS.arrayMove l _ _) as [l'|] eqn:E; [|discriminate].
  intros [= <-]. split.
  - apply keys_set_present. congruence.
  - apply (all_items_set_perm items c l l' Hl). eapply arrayMove_perm; eauto.
Qed.

Lemma moveAcross_conserves rows c oc a o prev items' :
  c <> oc ->
  moveAcross rows c oc a o prev = Done items' ->
  JS.keys items' = JS.keys prev
  /\ Permutation (all_items items') (all_items prev).
Proof.
  intros Hne. unfold moveAcross.
  destruct (JS.get prev c) as [source|] eqn:Hsrc; [|discriminate].
  destruct (JS.splice_delete source _) as [removed source'] eqn:Hsp.
  apply splice_delete_perm in Hsp as [HP Hlen].
  rewrite get_set_other by assumption.
  destruct (JS.get prev oc) as [dest|] eqn:Hdst; [|discriminate].
  destruct removed as [|m r]; [discriminate|].
  destruct r; [|simpl in Hlen; lia]. cbn [app] in HP.
  assert (Hkeys : forall d',
             JS.keys (JS.set (JS.set prev c source') oc d') = JS.keys prev).
  { intros d'. rewrite !keys_set_present; try reflexivity; try congruence.
    rewrite get_set_other by assumption. congruence. }
  assert (Hpush : Permutation (JS.push dest m) (m :: dest))
    by (symmetry; apply Permutation_cons_append).
  destruct (match findContainer rows (JS.set prev c source') o with
            | Some c0 => String.eqb c0 o
            | None => false
            end).
  - intros [= <-]. split; [apply Hkeys|].
    now apply (all_items_transfer prev c oc source source' m dest).
  - destruct (negb (JS.findIndex (image_is o) dest =? -1)%Z);
      intros [= <-]; (split; [apply Hkeys|]).
    + apply (all_items_transfer prev c oc source source' m dest); auto.
      apply splice_insert_perm.
    + now apply (all_items_transfer prev c oc source source' m dest).
Qed.

Lemma handleDragEnd_done (event : DragEndEvent) (st st' : State) :
  handleDragEnd event st = Done st' ->
  activeId st' = None
  /\ JS.keys (items st') = JS.keys (items st)
  /\ Permutation (all_items (items st')) (all_items (items st))
  /\ Permutation (rows st') (rows st).
Proof.
  unfold handleDragEnd.
  destruct (over event) as [o|]; [|intros [= <-]; cbn; auto].
  destruct (is_type ROW (data_type (active event))
            && is_type ROW (data_type o)).
  { destruct (negb (String.eqb (id (active event)) (id o)));
      [|intros [= <-]; cbn; auto].
    destruct (reorderRows _ _ _) as [rows'|] eqn:E; [|discriminate].
    intros [= <-]. cbn. repeat split; auto.
    unfold reorderRows in E. eapply arrayMove_perm; eauto. }
  destruct (is_type IMAGE (data_type (active event)));
    [|intros [= <-]; cbn; auto].
  assert (Hwithin : forall ac,
             (items' <- moveWithin ac (id (active event)) (id o) (items st) ;;
              Done (mkState (rows st) items' None)) = Done st' ->
             activeId st' = None
             /\ JS.keys (items st') = JS.keys (items st)
             /\ Permutation (all_items (items st')) (all_items (items st))
             /\ Permutation (rows st') (rows st)).
  { intros ac. destruct (moveWithin ac _ _ _) as [items'| |] eqn:E;
      cbn [bind]; try discriminate.
    intros [= <-]. cbn [activeId items rows].
    destruct (moveWithin_conserves _ _ _ _ _ E). auto. }
  destruct (findContainer (rows st) (items st) (id (active event)))
    as [ac|] eqn:Hac; [|apply Hwithin].
  destruct (findContainer (rows st) (items st) (id o)) as [oc|] eqn:Hoc;
    [|apply Hwithin].
  destruct (negb (truthy_id (Some ac)) || negb (truthy_id (Some oc))
            || String.eqb ac oc) eqn:Hcond; [apply Hwithin|].
  apply orb_false_iff in Hcond as [_ Hne]. apply String.eqb_neq in Hne.
  destruct (moveAcross _ _ _ _ _ _) as [items'| |] eqn:E;
    cbn [bind]; try discriminate.
  intros [= <-]. cbn [activeId items rows].
  destruct (moveAcross_conserves _ _ _ _ _ _ _ Hne E). auto.
Qed.

(** X1. Whenever [handleDragEnd] returns a state, in any state and for
    any event: the dragged id is cleared, the store has the same keys in
    the same order, the items of all containers are the same multiset,
    the rows are the same multiset, and the drag overlay has nothing left
    to show. *)
Theorem handleDragEnd_conserves (event : DragEndEvent) (st st' : State) :
  handleDragEnd event st = Done st' ->
  activeId st' = None
  /\ JS.keys (items st') = JS.keys (items st)
  /\ Permutation (all_items (items st')) (all_items (items st))
  /\ Permutation (rows st') (rows st)
  /\ getActiveItem st' = None /\ getActiveRow st' = None.
Proof.
  intros H.
  destruct (handleDragEnd_done event st st' H) as (H1 & H2 & H3 & H4).
  unfold getActiveItem, getActiveRow. rewrite H1.
  repeat split; auto.
Qed.

Lemma handleDragEnd_conserves_witness :
  exists st',
    handleDragEnd
      (mkEvent (mkTarget "b" (Some IMAGE)) (Some (mkTarget "A" (Some ROW))))
      (mkState defaultRows
         (JS.set defaultItems "S" [mkImage "a" "1"; mkImage "b" "2"])
         (Some "b"))
    = Done st'
    /\ activeId st' = None
    /\ JS.keys (items st') = JS.keys defaultItems.
Proof.
  eexists. split; [reflexivity|].
  destruct (handleDragEnd_conserves
              (mkEvent (mkTarget "b" (Some IMAGE))
                       (Some (mkTarget "A" (Some ROW))))
              (mkState defaultRows
                 (JS.set defaultItems "S" [mkImage "a" "1"; mkImage "b" "2"])
                 (Some "b"))
              _ eq_refl) as (H1 & H2 & _).
  split; [exact H1 | exact H2].
Defined.

(** X2. The registered types decide what a drag may touch: unless both
    ends are rows the rows stay as they are, and unless the dragged
    element is an image (and the two ends are not both rows) the store
    stays as it is. *)
Theorem handleDragEnd_kind_frame (event : DragEndEvent) (o : Target)
  (st st' : State) :
  over event = Some o ->
  handleDragEnd event st = Done st' ->
  (is_type ROW (data_type (active event)) && is_type ROW (data_type o) = false
   -> rows st' = rows st)
  /\ (is_type IMAGE (data_type (active event)) = false
      -> items st' = items st)
  /\ (is_type ROW (data_type (active event)) = false
      -> is_type IMAGE (data_type (active event)) = false
      -> st' = with_activeId st None).
Proof.
  intros Ho. unfold handleDragEnd. rewrite Ho.
  destruct (is_type ROW (data_type (active event))) eqn:Hrow;
    destruct (is_type ROW (data_type o)) eqn:Hrow';
    destruct (is_type IMAGE (data_type (active event))) eqn:Himg;
    cbn [andb];
    try (destruct (data_type (active event)) as [[|]|]; discriminate);
    try (intros [= <-]; repeat split; auto; discriminate).
  - destruct (negb (String.eqb (id (active event)) (id o)));
      [|intros [= <-]; repeat split; auto; discriminate].
    destruct (reorderRows _ _ _); [|discriminate].
    intros [= <-]. repeat split; auto; discriminate.
  - assert (Hb : forall r : outcome (JS.object (list TierImage)),
               (items' <- r ;; Done (mkState (rows st) items' None)) = Done st' ->
               rows st' = rows st).
    { intros [x| |]; cbn [bind]; try discriminate. now intros [= <-]. }
    intros H. repeat split; try discriminate. intros _.
    destruct (findContainer (rows st) (items st) (id (active event)));
      [|now apply Hb in H].
    destruct (findContainer (rows st) (items st) (id o)); [|now apply Hb in H].
    destruct (_ || _ || _); now apply Hb in H.
  - assert (Hb : forall r : outcome (JS.object (list TierImage)),
               (items' <- r ;; Done (mkState (rows st) items' None)) = Done st' ->
               rows st' = rows st).
    { intros [x| |]; cbn [bind]; try discriminate. now intros [= <-]. }
    intros H. repeat split; try discriminate. intros _.
    destruct (findContainer (rows st) (items st) (id (active event)));
      [|now apply Hb in H].
    destruct (findContainer (rows st) (items st) (id o)); [|now apply Hb in H].
    destruct (_ || _ || _); now apply Hb in H.
Qed.

Lemma handleDragEnd_kind_frame_witness :
  rows (with_activeId
          (mkState defaultRows (JS.set defaultItems "A" [mkImage "a" "1"])
                   (Some "S")) None)
  = defaultRows
  /\ items (with_activeId
              (mkState defaultRows (JS.set defaultItems "A" [mkImage "a" "1"])
                       (Some "S")) None)
     = JS.set defaultItems "A" [mkImage "a" "1"].
Proof.
  destruct (handleDragEnd_kind_frame
              (mkEvent (mkTarget "S" (Some ROW))
                       (Some (mkTarget "a" (Some IMAGE))))
              (mkTarget "a" (Some IMAGE))
              (mkState defaultRows (JS.set defaultItems "A" [mkImage "a" "1"])
                       (Some "S"))
              (with_activeId
                 (mkState defaultRows
                    (JS.set defaultItems "A" [mkImage "a" "1"]) (Some "S"))
                 None)
              eq_refl eq_refl) as (H1 & H2 & _).
  split; [now apply H1 | now apply H2].
Defined.

(** X3. Ids that resolve nowhere are absorbed: when the dragged image
    resolves to no container, or the over id resolves to no container
    while the container of the dragged image exists, [handleDragEnd]
    changes neither the rows nor the store. *)
Theorem drag_unresolved_is_absorbed (st : State) (a o : Target) :
  data_type a = Some IMAGE ->
  findContainer (rows st) (items st) (id a) = None
  \/ (findContainer (rows st) (items st) (id o) = None
      /\ exists c l,
           findContainer (rows st) (items st) (id a) = Some c
           /\ JS.get (items st) c = Some l) ->
  handleDragEnd (mkEvent a (Some o)) st
  = Done (mkState (rows st) (items st) None).
Proof.
  intros Ha H. unfold handleDragEnd. cbn [over active].
  destruct (image_not_row a Ha) as [-> ->]. cbn [andb].
  destruct H as [-> | (Ho & c & l & -> & Hl)]; [reflexivity|].
  rewrite Ho. unfold moveWithin.
  destruct (truthy_id (Some c) && truthy_id (Some (id o))); [|reflexivity].
  rewrite Hl.
  assert (Hno : JS.some (image_is (id o)) l = false).
  { unfold findContainer in Ho.
    destruct (String.eqb (id o) UNRANKED_ID || JS.some (row_is (id o)) (rows st));
      [discriminate|].
    eapply scanContainers_none; eauto. }
  rewrite (findIndex_absent _ _ Hno). cbn.
  rewrite andb_false_r. reflexivity.
Qed.

Lemma drag_unresolved_is_absorbed_witness :
  handleDragEnd
    (mkEvent (mkTarget "ghost" (Some IMAGE)) (Some (mkTarget "S" (Some ROW))))
    DEFAULT_STATE
  = Done (mkState defaultRows defaultItems None).
Proof.
  apply (drag_unresolved_is_absorbed DEFAULT_STATE
           (mkTarget "ghost" (Some IMAGE)) (mkTarget "S" (Some ROW))).
  - reflexivity.
  - left. reflexivity.
Defined.

(** ** The container resolver *)

Lemma scanContainers_finds items x k l :
  JS.get items k = Some l -> JS.some (image_is x) l = true ->
  exists c, scanContainers items x = Some c.
Proof.
  intros Hk Hx. destruct (scanContainers items x) as [c|] eqn:E; [eauto|].
  rewrite (scanContainers_none items x k l E Hk) in Hx. discriminate.
Qed.

(** X4. [findContainer]: the reserved id and the id of a row resolve to
    themselves, whatever the store holds; every answer [Some c] is either
    that case, with [c] the id, or names a key of the store whose
    container holds an item with the id; the answer is [null] exactly
    when the id is neither the reserved id, nor the id of a row, nor held
    by any container of the store. *)
Theorem findContainer_sound_complete
  (rs : list TierRowData) (its : JS.object (list TierImage)) (x : string) :
  (forall c,
      findContainer rs its x = Some c ->
      (c = x /\ (x = UNRANKED_ID \/ JS.some (row_is x) rs = true))
      \/ (x <> UNRANKED_ID /\ JS.some (row_is x) rs = false
          /\ exists l, JS.get its c = Some l
                       /\ JS.some (image_is x) l = true))
  /\ (x = UNRANKED_ID \/ JS.some (row_is x) rs = true ->
      findContainer rs its x = Some x)
  /\ (findContainer rs its x = None <->
      x <> UNRANKED_ID /\ JS.some (row_is x) rs = false
      /\ forall k l, JS.get its k = Some l ->
                     JS.some (image_is x) l = false).
Proof.
  split; [|split].
  - intros c. unfold findContainer.
    destruct (String.eqb_spec x UNRANKED_ID) as [E|E]; cbn [orb].
    + intros [= <-]. auto.
    + destruct (JS.some (row_is x) rs) eqn:Hr.
      * intros [= <-]. auto.
      * intros H. right. repeat split; auto.
        now apply scanContainers_some.
  - apply findContainer_container.
  - unfold findContainer.
    destruct (String.eqb_spec x UNRANKED_ID) as [E|E]; cbn [orb].
    + split; [discriminate | tauto].
    + destruct (JS.some (row_is x) rs) eqn:Hr.
      * split; [discriminate | intros (_ & ? & _); discriminate].
      * split.
        -- intros H. repeat split; auto. intros k l.
           now apply scanContainers_none.
        -- intros (_ & _ & H).
           destruct (scanContainers its x) as [c|] eqn:Hs; [|reflexivity].
           apply scanContainers_some in Hs as (l & Hl & Hx).
           rewrite (H c l Hl) in Hx. discriminate.
Qed.

Lemma get_in_all_items (o : JS.object (list TierImage)) k v x :
  JS.get o k = Some v -> In x v -> In x (all_items o).
Proof.
  unfold all_items.
  induction o as [|[k' w] t IH]; simpl; intros H Hx.
  - discriminate.
  - apply in_or_app. destruct (String.eqb k' k).
    + injection H as ->. now left.
    + right. now apply IH.
Qed.

Lemma NoDup_app_disjoint {A : Type} (l1 l2 : list A) x :
  NoDup (l1 ++ l2) -> In x l1 -> In x l2 -> False.
Proof.
  induction l1 as [|a t IH]; simpl; intros Hnd H1 H2.
  - contradiction.
  - inversion Hnd as [|? ? Hnot Hnd']; subst. destruct H1 as [-> | H1].
    + apply Hnot. apply in_or_app. now right.
    + now apply IH.
Qed.

(** X5. In a store whose item ids are pairwise distinct, an id that is
    not a container id resolves to the one container that holds the
    item. *)
Theorem findContainer_unique_holder
  (rs : list TierRowData) (its : JS.object (list TierImage))
  (x k : string) (l : list TierImage) :
  JS.wf_object its ->
  NoDup (map image_id (all_items its)) ->
  x <> UNRANKED_ID -> JS.some (row_is x) rs = false ->
  JS.get its k = Some l -> JS.some (image_is x) l = true ->
  findContainer rs its x = Some k.
Proof.
  intros Hwf Hnd Hx Hrow Hk Hin. unfold findContainer.
  rewrite (proj2 (String.eqb_neq x UNRANKED_ID) Hx), Hrow. cbn [orb].
  destruct (scanContainers_finds its x k l Hk Hin) as (c & Hc).
  rewrite Hc. f_equal.
  destruct (String.eqb_spec c k) as [E|E]; [assumption|exfalso].
  apply scanContainers_some in Hc as (l' & Hl' & Hin').
  apply existsb_exists in Hin as (i1 & Hi1 & E1).
  apply existsb_exists in Hin' as (i2 & Hi2 & E2).
  apply String.eqb_eq in E1, E2.
  pose proof (all_items_delete its k l Hwf Hk) as HP.
  apply (Permutation_map image_id) in HP. rewrite map_app in HP.
  apply (Permutation_NoDup HP) in Hnd.
  apply (NoDup_app_disjoint _ _ x Hnd).
  - rewrite <- E1. now apply in_map.
  - rewrite <- E2. apply in_map.
    apply (get_in_all_items _ c l'); [|assumption].
    now rewrite get_delete_other by congruence.
Qed.

Lemma findContainer_unique_holder_witness :
  findContainer defaultRows
    (JS.set (JS.set defaultItems "S" [mkImage "a" "1"])
            "B" [mkImage "b" "2"; mkImage "c" "3"])
    "c"
  = Some "B".
Proof.
  apply (findContainer_unique_holder defaultRows
           (JS.set (JS.set defaultItems "S" [mkImage "a" "1"])
                   "B" [mkImage "b" "2"; mkImage "c" "3"])
           "c" "B" [mkImage "b" "2"; mkImage "c" "3"]);
    try reflexivity; try discriminate.
  - unfold JS.wf_object. cbn.
    repeat (constructor; [cbn; intuition discriminate|]). constructor.
  - cbn. repeat (constructor; [cbn; intuition discriminate|]). constructor.
Defined.

(** ** Importing images, adding and editing rows *)

Lemma set_set {V : Type} (o : JS.object V) k v v' :
  JS.set (JS.set o k v) k v' = JS.set o k v'.
Proof.
  induction o as [|[k0 v0] t IH]; simpl.
  - now rewrite String.eqb_refl.
  - destruct (String.eqb k0 k) eqn:E; simpl; rewrite E; [reflexivity|].
    now rewrite IH.
Qed.

(** X6. [handleImageUpload] on a store that has the bank: the new images
    go to the end of the bank in the order given; the other containers,
    the keys, the rows and the dragged id are untouched. *)
Theorem handleImageUpload_appends
  (st : State) (newImages u : list TierImage) :
  JS.get (items st) UNRANKED_ID = Some u ->
  exists st',
    handleImageUpload newImages st = Done st'
    /\ JS.get (items st') UNRANKED_ID = Some (u ++ newImages)
    /\ (forall k, k <> UNRANKED_ID ->
                  JS.get (items st') k = JS.get (items st) k)
    /\ JS.keys (items st') = JS.keys (items st)
    /\ rows st' = rows st /\ activeId st' = activeId st.
Proof.
  intros Hu. unfold handleImageUpload. rewrite Hu.
  eexists. split; [reflexivity|]. cbn [items rows activeId with_items].
  split; [apply get_set_same|].
  split; [intros k Hk; rewrite get_set_other; congruence|].
  split; [apply keys_set_present; congruence | auto].
Qed.

Lemma handleImageUpload_appends_witness :
  exists st',
    handleImageUpload [mkImage "c" "3"]
      (mkState defaultRows
         (JS.set defaultItems UNRANKED_ID [mkImage "a" "1"; mkImage "b" "2"])
         None)
    = Done st'
    /\ JS.get (items st') UNRANKED_ID
       = Some [mkImage "a" "1"; mkImage "b" "2"; mkImage "c" "3"].
Proof.
  destruct (handleImageUpload_appends
              (mkState defaultRows
                 (JS.set defaultItems UNRANKED_ID
                    [mkImage "a" "1"; mkImage "b" "2"]) None)
              [mkImage "c" "3"] [mkImage "a" "1"; mkImage "b" "2"] eq_refl)
    as (st' & H1 & H2 & _).
  exists st'. split; assumption.
Defined.

(** X7. Imports compose: importing [a] and then [b] is importing
    [a ++ b] at once, and importing nothing into a store that has the
    bank changes nothing. *)
Theorem handleImageUpload_compose
  (st st1 : State) (a b : list TierImage) :
  handleImageUpload a st = Done st1 ->
  handleImageUpload b st1 = handleImageUpload (a ++ b) st
  /\ handleImageUpload [] st = Done st.
Proof.
  unfold handleImageUpload.
  destruct (JS.get (items st) UNRANKED_ID) as [u|] eqn:Hu; [|discriminate].
  intros [= <-]. cbn [items with_items]. split.
  - rewrite get_set_same. unfold with_items. cbn [items rows activeId].
    now rewrite set_set, app_assoc.
  - rewrite app_nil_r, (set_same_value _ _ _ Hu). now destruct st.
Qed.

Lemma handleImageUpload_compose_witness :
  handleImageUpload [mkImage "b" "2"]
    (mkState defaultRows (JS.set defaultItems UNRANKED_ID [mkImage "a" "1"])
             None)
  = handleImageUpload [mkImage "a" "1"; mkImage "b" "2"] DEFAULT_STATE.
Proof.
  apply (handleImageUpload_compose DEFAULT_STATE
           (mkState defaultRows
              (JS.set defaultItems UNRANKED_ID [mkImage "a" "1"]) None)
           [mkImage "a" "1"] [mkImage "b" "2"] eq_refl).
Defined.


Lemma new_row_id_shape uuid :
  String.append "new-row-" uuid <> UNRANKED_ID
  /\ String.append "new-row-" uuid <> "".
Proof. split; discriminate. Qed.

(** X9. [handleAddRow] with an id that is not yet a key of the store: the
    row goes last, its container is new, empty and last among the keys,
    every other container is as before and no item moves.  Whatever
    [crypto.randomUUID()] returns, the id of the new row is neither the
    reserved id nor empty. *)
Theorem handleAddRow_fresh (st : State) (uuid : string) :
  JS.get (items st) (String.append "new-row-" uuid) = None ->
  let newId := String.append "new-row-" uuid in
  let st' := handleAddRow uuid st in
  map row_id (rows st') = map row_id (rows st) ++ [newId]
  /\ JS.keys (items st') = JS.keys (items st) ++ [newId]
  /\ JS.get (items st') newId = Some []
  /\ (forall k, k <> newId -> JS.get (items st') k = JS.get (items st) k)
  /\ all_items (items st') = all_items (items st)
  /\ newId <> UNRANKED_ID /\ newId <> "".
Proof.
  intros Hfresh newId st'. subst newId st'. unfold handleAddRow.
  cbn [items rows].
  split; [now rewrite map_app|].
  split; [rewrite set_absent by assumption; unfold JS.keys;
          now rewrite map_app|].
  split; [apply get_set_same|].
  split; [intros k Hk; now rewrite get_set_other by congruence|].
  split; [now apply all_items_set_fresh|].
  apply new_row_id_shape.
Qed.

Lemma handleAddRow_fresh_witness :
  JS.keys (items (handleAddRow "u1" DEFAULT_STATE))
  = JS.keys defaultItems ++ ["new-row-u1"]
  /\ all_items (items (handleAddRow "u1" DEFAULT_STATE)) = [].
Proof.
  destruct (handleAddRow_fresh DEFAULT_STATE "u1" eq_refl)
    as (_ & H2 & _ & _ & H5 & _).
  split; [exact H2 | exact H5].
Defined.

Lemma map_update_unknown id l c (rs : list TierRowData) :
  existsb (row_is id) rs = false ->
  map (fun row => if row_is id row then mkRow (row_id row) l c else row) rs
  = rs.
Proof.
  induction rs as [|r t IH]; simpl; intros H.
  - reflexivity.
  - apply orb_false_iff in H as [-> Ht]. now rewrite IH.
Qed.

(** X10. [handleUpdateRow] keeps the ids and the order of the rows, the
    store and the dragged id; it rewrites label and color of the rows
    with the id and leaves every other row as it is; with an id that no
    row has it changes nothing; and of two updates of one id the last
    wins. *)
Theorem handleUpdateRow_frame
  (st : State) (id l c l2 c2 : string) :
  map row_id (rows (handleUpdateRow id l c st)) = map row_id (rows st)
  /\ items (handleUpdateRow id l c st) = items st
  /\ activeId (handleUpdateRow id l c st) = activeId st
  /\ (forall n row,
        nth_error (rows st) n = Some row ->
        nth_error (rows (handleUpdateRow id l c st)) n
        = Some (if String.eqb (row_id row) id
                then mkRow id l c else row))
  /\ (JS.some (row_is id) (rows st) = false -> handleUpdateRow id l c st = st)
  /\ handleUpdateRow id l2 c2 (handleUpdateRow id l c st)
     = handleUpdateRow id l2 c2 st.
Proof.
  unfold handleUpdateRow, with_rows. cbn [rows items activeId].
  split; [|split; [reflexivity|split; [reflexivity|split; [|split]]]].
  - rewrite map_map. apply map_ext. intros r. now destruct (row_is id r).
  - intros n row Hn. rewrite nth_error_map, Hn. cbn [option_map].
    unfold row_is. destruct (String.eqb_spec (row_id row) id) as [<- | _];
      reflexivity.
  - intros H. unfold JS.some in H. rewrite (map_update_unknown _ _ _ _ H).
    now destruct st.
  - f_equal. rewrite map_map. apply map_ext. intros r.
    unfold row_is. destruct (String.eqb (row_id r) id) eqn:E; cbn [row_id];
      now rewrite E.
Qed.

(** ** Deleting rows *)

Lemma filter_filter {A : Type} (f : A -> bool) (l : list A) :
  filter f (filter f l) = filter f l.
Proof.
  induction l as [|a t IH]; simpl.
  - reflexivity.
  - destruct (f a) eqn:E; simpl; rewrite ?E, IH; reflexivity.
Qed.

(** X11. Deleting is idempotent: for an id other than the reserved one
    that is not the name of a property of [Object.prototype], deleting it
    a second time changes nothing. *)
Theorem handleDeleteRow_idempotent (st st1 : State) (id : string) :
  id <> UNRANKED_ID ->
  JS.inherited id = false ->
  handleDeleteRow id st = Done st1 ->
  handleDeleteRow id st1 = Done st1.
Proof.
  intros Hne Hproto. unfold handleDeleteRow.
  destruct (JS.get (items st) UNRANKED_ID) as [u|] eqn:Hu; [|discriminate].
  destruct (itemsOrEmpty (items st) id) as [moved|]; [|discriminate].
  intros [= <-]. cbn [items rows activeId].
  rewrite (itemsOrEmpty_absent _ _ (get_delete_same _ _) Hproto).
  rewrite get_delete_other, get_set_same by assumption.
  rewrite app_nil_r.
  rewrite set_same_value
    by (rewrite get_delete_other, get_set_same by assumption; reflexivity).
  rewrite delete_absent by apply get_delete_same.
  now rewrite filter_filter.
Qed.

Lemma handleDeleteRow_idempotent_witness :
  handleDeleteRow "S"
    (mkState
       [ mkRow "A" "A" "#ffbf7f"; mkRow "B" "B" "#ffff7f";
         mkRow "C" "C" "#7fff7f"; mkRow "D" "D" "#7fbfff" ]
       [("A", []); ("B", []); ("C", []); ("D", []); ("unranked", [])] None)
  = Done (mkState
            [ mkRow "A" "A" "#ffbf7f"; mkRow "B" "B" "#ffff7f";
              mkRow "C" "C" "#7fff7f"; mkRow "D" "D" "#7fbfff" ]
            [("A", []); ("B", []); ("C", []); ("D", []); ("unranked", [])]
            None).
Proof.
  apply (handleDeleteRow_idempotent DEFAULT_STATE _ "S");
    [discriminate | reflexivity | reflexivity].
Defined.

(** X12. In any store that is an object with the bank, deleting an id
    other than the reserved one, which is a key of the store or else not
    the name of a property of [Object.prototype], loses no item and
    duplicates none, keeps the store an object and removes exactly that
    key, removes exactly the rows with that id, the others keeping their
    order, and leaves the bank with its items followed by those of the
    deleted container. *)
Theorem handleDeleteRow_conserves (st : State) (id : string)
  (u : list TierImage) :
  JS.wf_object (items st) ->
  id <> UNRANKED_ID ->
  JS.get (items st) id <> None \/ JS.inherited id = false ->
  JS.get (items st) UNRANKED_ID = Some u ->
  exists st',
    handleDeleteRow id st = Done st'
    /\ Permutation (all_items (items st')) (all_items (items st))
    /\ JS.wf_object (items st')
    /\ JS.keys (items st')
       = filter (fun k => negb (String.eqb k id)) (JS.keys (items st))
    /\ rows st'
       = filter (fun row => negb (String.eqb (row_id row) id)) (rows st)
    /\ JS.get (items st') UNRANKED_ID
       = Some (u ++ contents (items st) id).
Proof.
  intros Hwf Hne Hid Hu. unfold handleDeleteRow, contents.
  assert (Hmoved : itemsOrEmpty (items st) id
                   = Some match JS.get (items st) id with
                          | Some l => l
                          | None => []
                          end).
  { destruct (JS.get (items st) id) as [t|] eqn:Ht.
    - now apply itemsOrEmpty_own.
    - destruct Hid as [Hid | Hid]; [contradiction|].
      now apply itemsOrEmpty_absent. }
  rewrite Hmoved, Hu.
  eexists. split; [reflexivity|]. cbn [items rows].
  split; [|split; [now apply wf_delete, wf_set|split; [|split]]].
  - destruct (all_items_set (items st) UNRANKED_ID u Hu) as (rest & H1 & H2).
    destruct (JS.get (items st) id) as [t|] eqn:Ht.
    + assert (Ht' : JS.get (JS.set (items st) UNRANKED_ID (u ++ t)) id = Some t)
        by (rewrite get_set_other by congruence; assumption).
      pose proof (all_items_delete _ id t
                    (wf_set (items st) UNRANKED_ID (u ++ t) Hwf) Ht') as H3.
      rewrite H2 in H3. rewrite H1.
      apply (Permutation_app_inv_l t). rewrite <- H3.
      rewrite !app_assoc. apply Permutation_app_tail.
      apply Permutation_app_comm.
    + rewrite app_nil_r, (set_same_value _ _ _ Hu).
      now rewrite delete_absent.
  - rewrite keys_delete, keys_set_present; [reflexivity | congruence].
  - reflexivity.
  - rewrite get_delete_other by assumption. apply get_set_same.
Qed.

Lemma handleDeleteRow_conserves_witness :
  exists st',
    handleDeleteRow "S"
      (mkState defaultRows
         (JS.set defaultItems "S" [mkImage "a" "1"; mkImage "b" "2"]) None)
    = Done st'
    /\ Permutation (all_items (items st'))
                   [mkImage "a" "1"; mkImage "b" "2"].
Proof.
  destruct (handleDeleteRow_conserves
              (mkState defaultRows
                 (JS.set defaultItems "S" [mkImage "a" "1"; mkImage "b" "2"])
                 None) "S" []) as (st' & H1 & H2 & _).
  - unfold JS.wf_object. cbn.
    repeat (constructor; [cbn; intuition discriminate|]). constructor.
  - discriminate.
  - right. reflexivity.
  - reflexivity.
  - exists st'. split; [exact H1 | exact H2].
Defined.

(** X13. Deleting the reserved id, which nothing guards: the bank is
    removed from the store with the items it held, the other containers
    stay, and afterwards every import and every delete throws. *)
Theorem delete_reserved_id_destroys_bank (st : State) (u : list TierImage) :
  JS.wf_object (items st) ->
  JS.get (items st) UNRANKED_ID = Some u ->
  exists st',
    handleDeleteRow UNRANKED_ID st = Done st'
    /\ JS.get (items st') UNRANKED_ID = None
    /\ (forall k, k <> UNRANKED_ID ->
                  JS.get (items st') k = JS.get (items st) k)
    /\ Permutation (all_items (items st)) (u ++ all_items (items st'))
    /\ (forall newImages, handleImageUpload newImages st' = TypeError)
    /\ (forall id, handleDeleteRow id st' = TypeError).
Proof.
  intros Hwf Hu. unfold handleDeleteRow at 1.
  rewrite (itemsOrEmpty_own _ _ _ Hu), Hu.
  eexists. split; [reflexivity|]. cbn [items].
  assert (Hgone : JS.get (JS.delete (JS.set (items st) UNRANKED_ID (u ++ u))
                            UNRANKED_ID) UNRANKED_ID = None)
    by apply get_delete_same.
  split; [exact Hgone|].
  split; [intros k Hk; rewrite get_delete_other, get_set_other by congruence;
          reflexivity|].
  split.
  - destruct (all_items_set (items st) UNRANKED_ID u Hu) as (rest & H1 & H2).
    pose proof (all_items_delete _ UNRANKED_ID (u ++ u)
                  (wf_set (items st) UNRANKED_ID (u ++ u) Hwf)
                  (get_set_same _ _ _)) as H3.
    rewrite H2 in H3. apply Permutation_app_inv_l in H3.
    now rewrite H1, H3.
  - split; intros x; unfold handleImageUpload, handleDeleteRow;
      cbn [items]; now rewrite Hgone.
Qed.

Lemma delete_reserved_id_destroys_bank_witness :
  exists st',
    handleDeleteRow UNRANKED_ID
      (mkState defaultRows
         (JS.set defaultItems UNRANKED_ID [mkImage "x" "1"]) None)
    = Done st'
    /\ JS.get (items st') UNRANKED_ID = None
    /\ handleImageUpload [mkImage "y" "2"] st' = TypeError.
Proof.
  destruct (delete_reserved_id_destroys_bank
              (mkState defaultRows
                 (JS.set defaultItems UNRANKED_ID [mkImage "x" "1"]) None)
              [mkImage "x" "1"]) as (st' & H1 & H2 & _ & _ & H5 & _).
  - unfold JS.wf_object. cbn.
    repeat (constructor; [cbn; intuition discriminate|]). constructor.
  - reflexivity.
  - exists st'. split; [exact H1|]. split; [exact H2 | apply H5].
Defined.

(** ** Reordering neighbours *)

Lemma arrayMove_neighbours {A : Type} (l1 l2 : list A) x y :
  JS.arrayMove (l1 ++ x :: y :: l2)
    (Z.of_nat (List.length l1)) (Z.of_nat (S (List.length l1)))
  = Some (l1 ++ y :: x :: l2)
  /\ JS.arrayMove (l1 ++ x :: y :: l2)
       (Z.of_nat (S (List.length l1))) (Z.of_nat (List.length l1))
     = Some (l1 ++ y :: x :: l2).
Proof.
  split.
  - rewrite (arrayMove_in_range _ (List.length l1) (S (List.length l1)) x).
    + unfold JS.insert_at, JS.remove_at.
      rewrite firstn_length_app, skipn_S_length_app.
      replace (l1 ++ y :: l2) with ((l1 ++ [y]) ++ l2)
        by (now rewrite <- app_assoc).
      replace (S (List.length l1)) with (List.length (l1 ++ [y]))
        by (rewrite length_app; simpl; lia).
      rewrite firstn_length_app, skipn_length_app.
      now rewrite <- app_assoc.
    + rewrite nth_error_app2, Nat.sub_diag by lia. reflexivity.
    + rewrite length_app. simpl. lia.
  - rewrite (arrayMove_in_range _ (S (List.length l1)) (List.length l1) y).
    + unfold JS.insert_at, JS.remove_at.
      replace (l1 ++ x :: y :: l2) with ((l1 ++ [x]) ++ y :: l2)
        by (now rewrite <- app_assoc).
      replace (S (List.length l1)) with (List.length (l1 ++ [x]))
        by (rewrite length_app; simpl; lia).
      rewrite firstn_length_app, skipn_S_length_app.
      rewrite <- app_assoc. cbn [app].
      now rewrite firstn_length_app, skipn_length_app.
    + rewrite nth_error_app2 by lia.
      replace (S (List.length l1) - List.length l1)%nat with 1%nat by lia.
      reflexivity.
    + rewrite length_app. simpl. lia.
Qed.

(** X14. Dragging a tier onto its neighbour swaps the two, whichever of
    the two is dragged; nothing else moves and the store is untouched. *)
Theorem tier_neighbours_swap
  (st : State) (l1 l2 : list TierRowData) (x y : TierRowData) :
  rows st = l1 ++ x :: y :: l2 ->
  row_id x <> row_id y ->
  existsb (row_is (row_id x)) l1 = false ->
  existsb (row_is (row_id y)) l1 = false ->
  handleDragEnd
    (mkEvent (mkTarget (row_id x) (Some ROW))
             (Some (mkTarget (row_id y) (Some ROW)))) st
  = Done (mkState (l1 ++ y :: x :: l2) (items st) None)
  /\ handleDragEnd
       (mkEvent (mkTarget (row_id y) (Some ROW))
                (Some (mkTarget (row_id x) (Some ROW)))) st
     = Done (mkState (l1 ++ y :: x :: l2) (items st) None).
Proof.
  intros Hrows Hne Hx Hy.
  assert (Hix : JS.findIndex (row_is (row_id x)) (rows st)
                = Z.of_nat (List.length l1)).
  { apply findIndex_nat. rewrite Hrows. apply first_index_app; auto.
    unfold row_is. apply String.eqb_refl. }
  assert (Hiy : JS.findIndex (row_is (row_id y)) (rows st)
                = Z.of_nat (S (List.length l1))).
  { apply findIndex_nat. rewrite Hrows.
    replace (l1 ++ x :: y :: l2) with ((l1 ++ [x]) ++ y :: l2)
      by (now rewrite <- app_assoc).
    replace (S (List.length l1)) with (List.length (l1 ++ [x]))
      by (rewrite length_app; simpl; lia).
    apply first_index_app.
    - rewrite existsb_app, Hy. cbn. unfold row_is.
      rewrite (proj2 (String.eqb_neq (row_id x) (row_id y)) Hne). reflexivity.
    - unfold row_is. apply String.eqb_refl. }
  destruct (arrayMove_neighbours l1 l2 x y) as [H1 H2].
  unfold handleDragEnd, reorderRows. cbn [over active id data_type is_type andb].
  rewrite (proj2 (String.eqb_neq (row_id x) (row_id y)) Hne).
  rewrite (proj2 (String.eqb_neq (row_id y) (row_id x)))
    by (intros E; apply Hne; now symmetry).
  cbn [negb]. rewrite Hix, Hiy, Hrows, H1, H2. auto.
Qed.

Lemma tier_neighbours_swap_witness :
  handleDragEnd
    (mkEvent (mkTarget "A" (Some ROW)) (Some (mkTarget "B" (Some ROW))))
    DEFAULT_STATE
  = Done (mkState
            [ mkRow "S" "S" "#ff7f7f"; mkRow "B" "B" "#ffff7f";
              mkRow "A" "A" "#ffbf7f"; mkRow "C" "C" "#7fff7f";
              mkRow "D" "D" "#7fbfff" ]
            defaultItems None).
Proof.
  apply (tier_neighbours_swap DEFAULT_STATE
           [mkRow "S" "S" "#ff7f7f"]
           [mkRow "C" "C" "#7fff7f"; mkRow "D" "D" "#7fbfff"]
           (mkRow "A" "A" "#ffbf7f") (mkRow "B" "B" "#ffff7f"));
    try reflexivity. discriminate.
Defined.

(** ** The two load paths *)



(** ** The drag overlay *)

Lemma first_found_some {A B : Type} (f : A -> option B) (l : list A) y :
  first_found f l = Some y -> exists x, In x l /\ f x = Some y.
Proof.
  induction l as [|a t IH]; simpl; intros H.
  - discriminate.
  - destruct (f a) as [z|] eqn:E.
    + injection H as <-. eauto.
    + destruct (IH H) as (x & Hx & Hf). eauto.
Qed.

(** X16. In a state of the application the overlay shows at most one
    thing: an item found by [getActiveItem] carries the dragged id and
    sits in the store, and then [getActiveRow] finds nothing; a row found
    by [getActiveRow] carries the dragged id and is one of the rows, and
    then [getActiveItem] finds nothing. *)
Theorem overlay_shows_one (st : State) :
  consistent st ->
  (forall item,
      getActiveItem st = Some item ->
      activeId st = Some (image_id item)
      /\ In item (all_items (items st))
      /\ getActiveRow st = None)
  /\ (forall row,
        getActiveRow st = Some row ->
        activeId st = Some (row_id row)
        /\ In row (rows st)
        /\ getActiveItem st = None).
Proof.
  intros Hc.
  assert (Hitem : forall item,
             getActiveItem st = Some item ->
             activeId st = Some (image_id item)
             /\ In item (all_items (items st))
             /\ is_uuid (image_id item) = true).
  { intros item. unfold getActiveItem.
    destruct (activeId st) as [a|]; [|discriminate].
    destruct (truthy_id (Some a)); [|discriminate].
    intros H. apply first_found_some in H as (k & _ & Hk).
    destruct (JS.get (items st) k) as [l|] eqn:Hl; [|discriminate].
    apply find_some in Hk as [Hin Hid].
    apply String.eqb_eq in Hid. subst a.
    repeat split.
    - eapply get_in_all_items; eauto.
    - destruct Hc as (_ & _ & _ & Hitems).
      specialize (Hitems k l Hl). unfold uuid_items in Hitems.
      rewrite Forall_forall in Hitems. now apply Hitems. }
  assert (Hrow : forall row,
             getActiveRow st = Some row ->
             activeId st = Some (row_id row)
             /\ In row (rows st)
             /\ is_uuid (row_id row) = false).
  { intros row. unfold getActiveRow.
    destruct (activeId st) as [a|]; [|discriminate].
    destruct (truthy_id (Some a)); [|discriminate].
    intros H. apply find_some in H as [Hin Hid].
    apply String.eqb_eq in Hid. subst a.
    repeat split; auto.
    destruct Hc as (_ & _ & Hrows & _).
    rewrite Forall_forall in Hrows.
    now apply (Hrows (row_id row) (in_map row_id _ _ Hin)). }
  split.
  - intros item H. destruct (Hitem item H) as (H1 & H2 & H3).
    repeat split; auto.
    destruct (getActiveRow st) as [row|] eqn:E; [|reflexivity].
    destruct (Hrow row eq_refl) as (H4 & _ & H6). congruence.
  - intros row H. destruct (Hrow row H) as (H1 & H2 & H3).
    repeat split; auto.
    destruct (getActiveItem st) as [item|] eqn:E; [|reflexivity].
    destruct (Hitem item eq_refl) as (H4 & _ & H6). congruence.
Qed.

Lemma overlay_shows_one_witness :
  getActiveItem (handleDragStart "S" DEFAULT_STATE) = None.
Proof.
  apply (proj2 (overlay_shows_one (handleDragStart "S" DEFAULT_STATE)
                  (consistent_activeId _ _ consistent_default))
               (mkRow "S" "S" "#ff7f7f") eq_refl).
Defined.

(** ** The editors of a row *)

Lemma map_update_other id l c (rs : list TierRowData) :
  ~ In id (map row_id rs) ->
  map (fun row => if row_is id row then mkRow (row_id row) l c else row) rs
  = rs.
Proof.
  intros H. apply map_update_unknown.
  destruct (existsb (row_is id) rs) eqn:E; [|reflexivity].
  apply existsb_exists in E as (r & Hin & Hr). apply String.eqb_eq in Hr.
  exfalso. apply H. rewrite <- Hr. now apply in_map.
Qed.

(** X17. Editing a rendered row whose id is unique among the rows: a
    label edit replaces the label of that row and keeps its color, a
    color edit replaces the color and keeps the label; the row keeps its
    place and its id, every other row and the store are untouched. *)
Theorem row_edit_changes_one_field
  (st : State) (l1 l2 : list TierRowData) (row : TierRowData)
  (value : string) :
  rows st = l1 ++ row :: l2 ->
  NoDup (map row_id (rows st)) ->
  handleLabelChange row value st
  = mkState (l1 ++ mkRow (row_id row) value (color row) :: l2)
            (items st) (activeId st)
  /\ handleColorChange row value st
     = mkState (l1 ++ mkRow (row_id row) (label row) value :: l2)
               (items st) (activeId st).
Proof.
  intros Hrows Hnd. rewrite Hrows in Hnd.
  rewrite map_app in Hnd. cbn [map] in Hnd.
  assert (H1 : ~ In (row_id row) (map row_id l1)).
  { intros Hin. apply NoDup_remove_2 in Hnd. apply Hnd.
    apply in_or_app. now left. }
  assert (H2 : ~ In (row_id row) (map row_id l2)).
  { intros Hin. apply NoDup_remove_2 in Hnd. apply Hnd.
    apply in_or_app. now right. }
  unfold handleLabelChange, handleColorChange, handleUpdateRow, with_rows.
  rewrite Hrows, !map_app. cbn [map].
  rewrite !(map_update_other _ _ _ l1 H1), !(map_update_other _ _ _ l2 H2).
  assert (Hself : row_is (row_id row) row = true)
    by (unfold row_is; apply String.eqb_refl).
  now rewrite Hself.
Qed.

Lemma row_edit_changes_one_field_witness :
  handleLabelChange (mkRow "A" "A" "#ffbf7f") "Great" DEFAULT_STATE
  = mkState
      [ mkRow "S" "S" "#ff7f7f"; mkRow "A" "Great" "#ffbf7f";
        mkRow "B" "B" "#ffff7f"; mkRow "C" "C" "#7fff7f";
        mkRow "D" "D" "#7fbfff" ]
      defaultItems None.
Proof.
  apply (row_edit_changes_one_field DEFAULT_STATE
           [mkRow "S" "S" "#ff7f7f"]
           [mkRow "B" "B" "#ffff7f"; mkRow "C" "C" "#7fff7f";
            mkRow "D" "D" "#7fbfff"]
           (mkRow "A" "A" "#ffbf7f") "Great").
  - reflexivity.
  - cbn. repeat (constructor; [cbn; intuition discriminate|]). constructor.
Defined.

(** ** The registry and the store in the states the application reaches *)

Lemma Permutation_filter_same {A : Type} (f : A -> bool) (l l' : list A) :
  Permutation l l' -> Permutation (filter f l) (filter f l').
Proof.
  induction 1 as [|x l l' _ IH|x y l|l l' l'' _ IH1 _ IH2]; simpl.
  - constructor.
  - destruct (f x); [now constructor | assumption].
  - destruct (f x), (f y); try reflexivity. apply perm_swap.
  - now transitivity (filter f l').
Qed.

Lemma row_ids_filter id (rs : list TierRowData) :
  map row_id (filter (fun row => negb (row_is id row)) rs)
  = filter (fun k => negb (String.eqb k id)) (map row_id rs).
Proof.
  induction rs as [|r t IH]; simpl.
  - reflexivity.
  - unfold row_is at 1. destruct (String.eqb (row_id r) id); simpl;
      now rewrite IH.
Qed.

Lemma values_by_keys (o : JS.object (list TierImage)) :
  JS.wf_object o -> map snd o = map (contents o) (JS.keys o).
Proof.
  unfold JS.wf_object.
  induction o as [|[k v] t IH]; simpl; intros Hwf.
  - reflexivity.
  - inversion Hwf as [|? ? Hnot Hwf']; subst.
    unfold contents at 1. simpl. rewrite String.eqb_refl. f_equal.
    rewrite (IH Hwf'). apply map_ext_in. intros k' Hk'.
    unfold contents. simpl.
    destruct (String.eqb_spec k k') as [<- | _]; [contradiction | reflexivity].
Qed.

Lemma renderItems_own items id :
  JS.get items id <> None -> renderItems items id = Done (contents items id).
Proof.
  intros H. unfold renderItems, contents.
  destruct (JS.get items id) as [l|] eqn:E; [|contradiction].
  now rewrite (itemsOrEmpty_own _ _ _ E).
Qed.

Lemma renderRows_own items (rs : list TierRowData) :
  (forall k, In k (map row_id rs) -> JS.get items k <> None) ->
  renderRows items rs
  = Done (map (fun row => (row, contents items (row_id row))) rs).
Proof.
  induction rs as [|r t IH]; intros H; cbn [renderRows map].
  - reflexivity.
  - rewrite renderItems_own by (apply H; now left).
    cbn [bind]. rewrite IH by (intros k Hk; apply H; now right).
    reflexivity.
Qed.

Lemma render_shown st :
  JS.wf_object (items st) -> keys_match st ->
  exists shown,
    render st = Done shown
    /\ Permutation (shown_items shown) (all_items (items st)).
Proof.
  intros Hwf Hkm.
  assert (Hkeys : forall k, In k (UNRANKED_ID :: map row_id (rows st)) ->
                            JS.get (items st) k <> None).
  { intros k Hk. apply get_in_keys.
    now apply (Permutation_in _ (Permutation_sym Hkm)). }
  unfold render.
  rewrite renderRows_own by (intros k Hk; apply Hkeys; now right).
  cbn [bind]. rewrite renderItems_own by (apply Hkeys; now left).
  cbn [bind]. eexists. split; [reflexivity|].
  unfold shown_items, all_items. cbn [fst snd].
  rewrite (values_by_keys _ Hwf), map_map. cbn [snd].
  rewrite <- !flat_map_concat_map.
  unfold keys_match in Hkm. rewrite Hkm. cbn [flat_map].
  rewrite flat_map_concat_map, <- (map_map row_id (contents (items st))).
  rewrite <- flat_map_concat_map. apply Permutation_app_comm.
Qed.

Lemma keys_match_default : keys_match DEFAULT_STATE.
Proof.
  unfold keys_match. cbn. symmetry.
  apply (Permutation_cons_append ["S"; "A"; "B"; "C"; "D"] "unranked").
Qed.

Lemma perform_keys_match st a st' :
  consistent st -> keys_match st -> offered st a = true ->
  perform a st = Done st' -> keys_match st'.
Proof.
  intros Hc Hkm Hoff. unfold keys_match in *.
  destruct a; cbn [perform offered] in *.
  - intros [= <-]. apply andb_true_iff in Hoff as [_ Hfresh].
    destruct (JS.get (items st) (String.append "new-row-" uuid)) eqn:E;
      [discriminate|].
    unfold handleAddRow. cbn [items rows].
    rewrite set_absent by assumption. unfold JS.keys.
    rewrite !map_app. cbn [map fst row_id].
    fold (JS.keys (items st)). rewrite Hkm. reflexivity.
  - intros [= <-]. unfold handleUpdateRow, with_rows. cbn [items rows].
    rewrite Hkm, map_map. apply Permutation_cons; [reflexivity|].
    erewrite map_ext; [reflexivity|].
    intros r. cbv beta. now destruct (row_is id0 r).
  - unfold handleDeleteRow.
    destruct (JS.get (items st) UNRANKED_ID) as [u|] eqn:Hu; [|discriminate].
    destruct (itemsOrEmpty (items st) id0) as [moved|]; [|discriminate].
    intros [= <-]. cbn [items rows].
    rewrite keys_delete, keys_set_present by congruence.
    rewrite row_ids_filter.
    assert (Hne : String.eqb UNRANKED_ID id0 = false).
    { apply String.eqb_neq. intros <-.
      destruct Hc as (_ & _ & Hrows & _).
      apply existsb_exists in Hoff as (row & Hin & Hrow).
      apply String.eqb_eq in Hrow. rewrite Forall_forall in Hrows.
      destruct (Hrows (row_id row) (in_map row_id _ _ Hin)) as (_ & Hx & _).
      contradiction. }
    rewrite (Permutation_filter_same _ _ _ Hkm). cbn [filter].
    now rewrite Hne.
  - unfold handleImageUpload.
    destruct (JS.get (items st) UNRANKED_ID) as [u|] eqn:Hu; [|discriminate].
    intros [= <-]. cbn [items rows with_items].
    rewrite keys_set_present by congruence. exact Hkm.
  - intros [= <-]. exact Hkm.
  - intros H. apply handleDragEnd_done in H as (_ & H2 & _ & H4).
    rewrite H2, Hkm. apply Permutation_cons; [reflexivity|].
    symmetry. now apply Permutation_map.
Qed.

Lemma run_keys_match acts :
  forall st st',
    consistent st -> keys_match st -> supported acts st = true ->
    run acts st = Done st' -> keys_match st'.
Proof.
  induction acts as [|a acts IH]; intros st st' Hc Hkm Hsup; cbn [run].
  - now intros [= <-].
  - cbn [supported] in Hsup. apply andb_true_iff in Hsup as [Hoff Hrest].
    destruct (perform_ok st a Hc Hoff) as (st1 & Hp & Hc1 & _).
    rewrite Hp in *. cbn [bind].
    apply (IH st1 st' Hc1); auto.
    now apply (perform_keys_match st a st1).
Qed.

(** X18. In a state whose store is an object with exactly the bank and
    one key per row, the rendering returns and shows every item of the
    store exactly once, the ids of the rows are pairwise distinct and
    differ from the reserved id, and a key resolves exactly when it is
    the bank or a row. *)
Theorem render_shows_every_item (st : State) :
  JS.wf_object (items st) -> keys_match st ->
  (exists shown,
      render st = Done shown
      /\ Permutation (shown_items shown) (all_items (items st)))
  /\ NoDup (map row_id (rows st))
  /\ ~ In UNRANKED_ID (map row_id (rows st))
  /\ (forall k, JS.get (items st) k <> None
                <-> k = UNRANKED_ID \/ In k (map row_id (rows st))).
Proof.
  intros Hwf Hkm. split; [now apply render_shown|].
  pose proof (Permutation_NoDup Hkm Hwf) as Hnd.
  inversion Hnd as [|? ? Hnot Hnd']; subst.
  repeat split; auto.
  - intros H. apply get_in_keys in H.
    apply (Permutation_in _ Hkm) in H. destruct H as [<- | H]; auto.
  - intros H. apply get_in_keys.
    apply (Permutation_in _ (Permutation_sym Hkm)).
    destruct H as [-> | H]; [now left | now right].
Qed.

Lemma render_shows_every_item_witness :
  exists shown,
    render (mkState defaultRows
              (JS.set (JS.set defaultItems UNRANKED_ID [mkImage "x" "1"])
                      "B" [mkImage "y" "2"]) None)
    = Done shown
    /\ Permutation (shown_items shown)
         (all_items
            (JS.set (JS.set defaultItems UNRANKED_ID [mkImage "x" "1"])
                    "B" [mkImage "y" "2"])).
Proof.
  apply (render_shows_every_item
           (mkState defaultRows
              (JS.set (JS.set defaultItems UNRANKED_ID [mkImage "x" "1"])
                      "B" [mkImage "y" "2"]) None)).
  - unfold JS.wf_object. cbn.
    repeat (constructor; [cbn; intuition discriminate|]). constructor.
  - unfold keys_match. cbn.
    symmetry.
    apply (Permutation_cons_append ["S"; "A"; "B"; "C"; "D"] "unranked").
Defined.

(** X19. Every sequence of mutations the user interface offers, run from
    the initial state, ends in a state where the store has exactly the
    bank and one container per row, the ids of the rows are pairwise
    distinct, no item carries the id of a container, and the rendering
    returns and shows exactly the imported items, each as often as it
    was imported. *)
Theorem reachable_state_is_rendered (acts : list Action) :
  supported acts DEFAULT_STATE = true ->
  exists st shown,
    run acts DEFAULT_STATE = Done st
    /\ consistent st
    /\ keys_match st
    /\ NoDup (map row_id (rows st))
    /\ render st = Done shown
    /\ Permutation (shown_items shown) (imported acts).
Proof.
  intros Hsup.
  destruct (run_ok acts DEFAULT_STATE consistent_default Hsup)
    as (st & Hr & Hc & HP).
  pose proof (run_keys_match acts DEFAULT_STATE st consistent_default
                keys_match_default Hsup Hr) as Hkm.
  destruct (render_shown st (proj1 Hc) Hkm) as (shown & Hrender & Hshown).
  exists st, shown.
  split; [assumption|]. split; [assumption|]. split; [assumption|].
  split.
  - pose proof (Permutation_NoDup Hkm (proj1 Hc)) as Hnd.
    now inversion Hnd.
  - split; [assumption|]. now rewrite Hshown.
Qed.

Lemma reachable_state_is_rendered_witness :
  exists st shown,
    run sample_run DEFAULT_STATE = Done st
    /\ consistent st
    /\ keys_match st
    /\ NoDup (map row_id (rows st))
    /\ render st = Done shown
    /\ Permutation (shown_items shown) (imported sample_run).
Proof.
  apply (reachable_state_is_rendered sample_run). vm_compute. reflexivity.
Defined.

(** ** Edges of the drag handler *)

Lemma splice_delete_last {A : Type} (l : list A) z :
  JS.splice_delete (l ++ [z]) (-1) = ([z], l).
Proof.
  unfold JS.splice_delete.
  assert (Hk : JS.relative_start (List.length (l ++ [z])) (-1)
               = List.length l).
  { unfold JS.relative_start. cbn [Z.ltb Z.compare].
    rewrite length_app. simpl. lia. }
  rewrite Hk, skipn_length_app, firstn_length_app, skipn_S_length_app.
  now rewrite app_nil_r.
Qed.

Lemma splice_delete_empty {A : Type} (start : Z) :
  JS.splice_delete (@nil A) start = ([], []).
Proof.
  unfold JS.splice_delete.
  now rewrite firstn_nil, !skipn_nil.
Qed.

(** X20. The row branch passes the result of [findIndex] to [arrayMove]
    unguarded: when both ends are typed as rows and the dragged id is not
    the id of any row, the last row is the one that moves to the index
    of the over row. *)
Theorem reorder_unknown_row_moves_last
  (st : State) (a o : Target) (l : list TierRowData) (z : TierRowData)
  (newIndex : nat) :
  data_type a = Some ROW -> data_type o = Some ROW ->
  rows st = l ++ [z] ->
  JS.some (row_is (id a)) (rows st) = false ->
  JS.first_index (row_is (id o)) (rows st) = Some newIndex ->
  handleDragEnd (mkEvent a (Some o)) st
  = Done (mkState (JS.insert_at newIndex z l) (items st) None).
Proof.
  intros Ha Ho Hrows Hnone Hj.
  assert (Hne : String.eqb (id a) (id o) = false).
  { apply String.eqb_neq. intros E. rewrite E in Hnone.
    apply first_index_nth in Hj as (x & Hx & Hp & _).
    apply nth_error_In in Hx.
    assert (JS.some (row_is (id o)) (rows st) = true)
      by (apply existsb_exists; eauto).
    congruence. }
  destruct (first_index_nth _ _ _ Hj) as (_ & _ & _ & Hlt).
  unfold handleDragEnd, reorderRows. cbn [over active].
  rewrite Ha, Ho, Hne. cbn [is_type andb negb].
  rewrite (findIndex_absent _ _ Hnone), (findIndex_nat _ _ _ Hj).
  rewrite Hrows in *. unfold JS.arrayMove.
  destruct (Z.ltb_spec (Z.of_nat newIndex) 0); [lia|].
  rewrite splice_delete_last. unfold JS.splice_insert, JS.insert_at.
  rewrite length_app in Hlt. simpl in Hlt.
  now rewrite relative_start_nat by lia.
Qed.

Lemma reorder_unknown_row_moves_last_witness :
  handleDragEnd
    (mkEvent (mkTarget "ghost" (Some ROW)) (Some (mkTarget "S" (Some ROW))))
    DEFAULT_STATE
  = Done (mkState
            [ mkRow "D" "D" "#7fbfff"; mkRow "S" "S" "#ff7f7f";
              mkRow "A" "A" "#ffbf7f"; mkRow "B" "B" "#ffff7f";
              mkRow "C" "C" "#7fff7f" ]
            defaultItems None).
Proof.
  apply (reorder_unknown_row_moves_last DEFAULT_STATE
           (mkTarget "ghost" (Some ROW)) (mkTarget "S" (Some ROW))
           [ mkRow "S" "S" "#ff7f7f"; mkRow "A" "A" "#ffbf7f";
             mkRow "B" "B" "#ffff7f"; mkRow "C" "C" "#7fff7f" ]
           (mkRow "D" "D" "#7fbfff") 0); reflexivity.
Defined.



(** X22. Adding a row and deleting it again gives back the state: for a
    new id that is neither a key of the store nor the id of a row, in a
    store that has the bank. *)
Theorem add_then_delete_roundtrip
  (st : State) (uuid : string) (u : list TierImage) :
  JS.get (items st) (String.append "new-row-" uuid) = None ->
  JS.some (row_is (String.append "new-row-" uuid)) (rows st) = false ->
  JS.get (items st) UNRANKED_ID = Some u ->
  handleDeleteRow (String.append "new-row-" uuid) (handleAddRow uuid st)
  = Done st.
Proof.
  intros Hfresh Hrows Hu. unfold handleDeleteRow, handleAddRow.
  cbn [items rows activeId].
  destruct (new_row_id_shape uuid) as [Hne _].
  rewrite (itemsOrEmpty_own _ _ _ (get_set_same _ _ _)).
  rewrite get_set_other, Hu, app_nil_r by assumption.
  rewrite (set_absent _ _ _ Hfresh).
  assert (Hset : JS.set (items st ++ [(String.append "new-row-" uuid, [])])
                   UNRANKED_ID u
                 = items st ++ [(String.append "new-row-" uuid, [])]).
  { apply set_same_value. rewrite <- (set_absent _ _ _ Hfresh).
    now rewrite get_set_other. }
  rewrite Hset.
  assert (Hitems : JS.delete (items st ++ [(String.append "new-row-" uuid, [])])
                     (String.append "new-row-" uuid)
                   = items st).
  { unfold JS.delete. rewrite filter_app. cbn [filter fst].
    rewrite String.eqb_refl. cbn [negb]. rewrite app_nil_r.
    apply (delete_absent _ _ Hfresh). }
  assert (Hrs : filter (fun row => negb (row_is (String.append "new-row-" uuid) row))
                  (rows st ++ [mkRow (String.append "new-row-" uuid)
                                     "New Tier" "#4a4a4a"])
                = rows st).
  { rewrite filter_app. cbn [filter]. unfold row_is at 2. cbn [row_id].
    rewrite String.eqb_refl. cbn [negb]. rewrite app_nil_r.
    unfold JS.some in Hrows. apply (filter_none _ _ Hrows). }
  rewrite Hitems, Hrs. now destruct st.
Qed.

Lemma add_then_delete_roundtrip_witness :
  handleDeleteRow "new-row-u1" (handleAddRow "u1" DEFAULT_STATE)
  = Done DEFAULT_STATE.
Proof.
  apply (add_then_delete_roundtrip DEFAULT_STATE "u1" []); reflexivity.
Defined.

(** X23. The cross-container branch passes the result of [findIndex] to
    [splice] unguarded: when the dragged image carries the id of a
    container that holds no item with that id, and the over id resolves
    to another container, the last item of the container is the one
    that moves; when the container is empty an [undefined] is stored. *)
Theorem container_id_dragged_as_image
  (st : State) (a o : Target) (oc : string) (source d : list TierImage) :
  data_type a = Some IMAGE ->
  id a = UNRANKED_ID \/ JS.some (row_is (id a)) (rows st) = true ->
  findContainer (rows st) (items st) (id o) = Some oc ->
  id a <> oc -> id a <> "" -> oc <> "" ->
  JS.get (items st) (id a) = Some source ->
  JS.some (image_is (id a)) source = false ->
  JS.get (items st) oc = Some d ->
  (source = [] ->
   handleDragEnd (mkEvent a (Some o)) st = UndefinedElement)
  /\ (forall l z,
        source = l ++ [z] ->
        exists items' d',
          handleDragEnd (mkEvent a (Some o)) st
          = Done (mkState (rows st) items' None)
          /\ JS.get items' (id a) = Some l
          /\ JS.get items' oc = Some d'
          /\ Permutation d' (z :: d)).
Proof.
  intros Ha Hcont Hoc Hne Hta Hto Hsrc Hnone Hd.
  assert (Hhead : handleDragEnd (mkEvent a (Some o)) st
                  = (items' <- moveAcross (rows st) (id a) oc (id a) (id o)
                                          (items st) ;;
                     Done (mkState (rows st) items' None))).
  { unfold handleDragEnd. cbn [over active].
    destruct (image_not_row a Ha) as [-> ->]. cbn [andb].
    rewrite (findContainer_container _ _ _ Hcont), Hoc. unfold truthy_id.
    rewrite (eqb_empty_false _ Hta), (eqb_empty_false _ Hto).
    now rewrite (proj2 (String.eqb_neq (id a) oc) Hne). }
  rewrite Hhead. unfold moveAcross.
  rewrite Hsrc, (findIndex_absent _ _ Hnone). split.
  - intros ->. rewrite splice_delete_empty.
    rewrite get_set_other, Hd by assumption. reflexivity.
  - intros l z ->. rewrite splice_delete_last.
    rewrite get_set_other, Hd by assumption.
    assert (Hpush : Permutation (JS.push d z) (z :: d))
      by (symmetry; apply Permutation_cons_append).
    destruct (match findContainer _ _ _ with Some _ => _ | None => _ end);
      [|destruct (negb _)]; cbn [bind];
      eexists _, _; (split; [reflexivity|]);
      (split; [rewrite get_set_other by congruence; apply get_set_same|]);
      (split; [apply get_set_same|]); auto.
    apply splice_insert_perm.
Qed.

Lemma container_id_dragged_as_image_witness :
  handleDragEnd
    (mkEvent (mkTarget "S" (Some IMAGE)) (Some (mkTarget "A" (Some ROW))))
    DEFAULT_STATE
  = UndefinedElement.
Proof.
  apply (container_id_dragged_as_image DEFAULT_STATE
           (mkTarget "S" (Some IMAGE)) (mkTarget "A" (Some ROW))
           "A" [] []); try reflexivity; try discriminate.
  right. reflexivity.
Defined.

(** ** Names inherited from [Object.prototype] *)

(** A row whose id names a property of [Object.prototype] and has no key
    of its own: the render hands the inherited value to the row and
    throws; deleting the row throws; once the id is a key of the store
    the first delete works and the second throws. *)
Example inherited_name_as_row_id :
  render (mkState [mkRow "constructor" "C" "#ffffff"]
                  [("unranked", [])] None)
  = TypeError
  /\ handleDeleteRow "constructor"
       (mkState [mkRow "constructor" "C" "#ffffff"] [("unranked", [])] None)
     = TypeError
  /\ handleDeleteRow "constructor"
       (mkState [mkRow "constructor" "C" "#ffffff"]
                [("constructor", [mkImage "a" "1"]); ("unranked", [])] None)
     = Done (mkState [] [("unranked", [mkImage "a" "1"])] None)
  /\ handleDeleteRow "constructor"
       (mkState [] [("unranked", [mkImage "a" "1"])] None)
     = TypeError.
Proof. repeat split. Qed.
